(** * The face-embedding server: strategy fallback and batch extraction

    A shallow embedding of [src/faceapi_server.js]: the two request
    handlers [POST /extract_embedding] and [POST /batch_extract] with
    the JavaScript values they inspect, the loading of the models, the
    start of the server, the middleware and the monitoring routes; and
    the properties of the fallback loop, of the batch loop, of the
    readiness gate and of the code around them.

    The inference library (face-api.js), the image decoder (canvas),
    the clock and the console are collaborators of the handlers: they
    are taken as an abstract [Runtime], and those of the rest of the
    server as an abstract [Host], so that every theorem holds for every
    behaviour of the collaborators, including stateful ones. *)

From Stdlib Require Import ZArith QArith Qcanon Qround.
From stdpp Require Import base option list strings numbers gmap pretty.

Local Open Scope Z_scope.

(** ** JavaScript values *)

Module JS.

(** A JavaScript [number].  Finite numbers are kept as (canonical)
    rationals: the rounding of binary64 arithmetic and the sign of zero
    are not modelled; NaN and the two infinities are. *)
Inductive number : Type :=
  | NaN
  | Infinity (negative : bool)
  | Finite (q : Qc).

Definition of_Z (z : Z) : number := Finite (Q2Qc (inject_Z z)).

Definition of_Q (q : Q) : number := Finite (Q2Qc q).

(** The literal [0.0]. *)
Definition zero : number := of_Z 0.

(** [ToBoolean] on numbers: 0 and NaN are falsy. *)
Definition truthy_number (n : number) : bool :=
  match n with
  | NaN => false
  | Infinity _ => true
  | Finite q => negb (Qeq_bool q 0)
  end.

Definition negative_number (n : number) : bool :=
  match n with
  | NaN => false
  | Infinity s => s
  | Finite q => bool_decide (Qclt q 0)
  end.

(** The [/] operator. *)
Definition div (a b : number) : number :=
  match a, b with
  | NaN, _ | _, NaN => NaN
  | Infinity _, Infinity _ => NaN
  | Infinity s, Finite _ => Infinity (xorb s (negative_number b))
  | Finite _, Infinity _ => zero
  | Finite p, Finite q =>
      if Qeq_bool q 0
      then (if Qeq_bool p 0 then NaN else Infinity (negative_number a))
      else Finite (Qcdiv p q)
  end.

(** [Math.round]: the nearest integer, halves towards +Infinity. *)
Definition Math_round (n : number) : number :=
  match n with
  | Finite q => of_Z (Qfloor (Qplus q (1 # 2)))
  | _ => n
  end.

(** [a || b] where [a] is a number or [undefined]. *)
Definition or_number (a : option number) (b : number) : number :=
  match a with
  | Some n => if truthy_number n then n else b
  | None => b
  end.

(** Values that arrive in a parsed JSON request body. *)
#[local] Unset Elimination Schemes.
Inductive value : Type :=
  | VUndefined
  | VNull
  | VBool (b : bool)
  | VNumber (n : number)
  | VString (s : string)
  | VArray (elems : list value)
  | VObject (props : list (string * value)).
#[local] Set Elimination Schemes.

(** [ToBoolean]. *)
Definition truthy (v : value) : bool :=
  match v with
  | VUndefined | VNull => false
  | VBool b => b
  | VNumber n => truthy_number n
  | VString s => negb (String.eqb s "")
  | VArray _ | VObject _ => true
  end.

(** [Array.isArray] and, for an array, its elements. *)
Definition Array_isArray (v : value) : bool :=
  match v with VArray _ => true | _ => false end.

Definition elements (v : value) : list value :=
  match v with VArray elems => elems | _ => [] end.

(** Reading a property of a parsed JSON object: [undefined] when the
    key is missing. *)
Definition property (o : gmap string value) (key : string) : value :=
  default VUndefined (o !! key).

(** What [JSON.stringify] writes for a number: NaN and the infinities
    become [null]. *)
Definition JSON_number (n : number) : value :=
  match n with
  | Finite _ => VNumber n
  | _ => VNull
  end.

(** A thrown [Error]; the handlers only read its [message]. *)
Record Error : Type := { message : string }.

(** How an awaited call completes. *)
Inductive Completion (A : Type) : Type :=
  | Normal (a : A)
  | Throw (e : Error).
Global Arguments Normal {A} a.
Global Arguments Throw {A} e.

End JS.

Import JS.

(** ** What the inference library hands back *)

Module faceapi.

(** [new faceapi.TinyFaceDetectorOptions({inputSize, scoreThreshold})] and
    [new faceapi.SsdMobilenetv1Options({minConfidence})]. *)
Inductive DetectorOptions : Type :=
  | TinyFaceDetectorOptions (inputSize : Z) (scoreThreshold : number)
  | SsdMobilenetv1Options (minConfidence : number).

Record Box : Type := { x : number; y : number; width : number; height : number }.

(** [detection.detection]: the box and the score, which may be missing. *)
Record FaceDetection : Type := { box : Box; score : option number }.

Record FaceLandmarks : Type := { positions : list (number * number) }.

(** The object [detectSingleFace(..).withFaceLandmarks().withFaceDescriptor()]
    resolves to, when it is not [undefined].  [descriptor] is a
    [Float32Array] or missing; a typed array is truthy whatever its
    length. *)
Record FaceDescription : Type := {
  detection : FaceDetection;
  landmarks : option FaceLandmarks;
  descriptor : option (list number)
}.

End faceapi.

Import faceapi.

(** An entry of [detectionStrategies]. *)
Record Strategy : Type := { name : string; options : DetectorOptions }.

(** [detection && detection.descriptor] *)
Definition has_descriptor (d : option FaceDescription) : bool :=
  match d with
  | Some fd => bool_decide (is_Some (descriptor fd))
  | None => false
  end.

(** The detection together with its descriptor, when the test
    [detection && detection.descriptor] passes. *)
Definition described (d : option FaceDescription)
  : option (FaceDescription * list number) :=
  fd ← d; v ← descriptor fd; Some (fd, v).

(** ** What the handlers answer *)

(** [res.status(status).json(body)]; [res.json(body)] answers 200. *)
Record Response (B : Type) : Type := { status : Z; body : B }.
Global Arguments Build_Response {B} _ _.
Global Arguments status {B} _.
Global Arguments body {B} _.

(** The flags the server keeps about its models. *)
Record Server : Type := {
  modelsLoaded : bool;
  loadingProgress : gmap string string
}.

Module Extract.

(** The object literals [/extract_embedding] answers with, one
    constructor per literal; [success] is [true] in [Found] only. *)
Inductive Body : Type :=
  | NotReady (error : string) (progress : gmap string string)
  | BadRequest (error : string)
  | Found (embedding : list number) (inferenceTime : Z)
      (strategy : option string) (boundingBox : Box)
      (confidence : number) (landmarks : Z)
  | NoFace (error : string) (inferenceTime : Z) (strategiesTried : list string)
  | Failed (error : string) (inferenceTime : Z).

Definition success (b : Body) : bool :=
  match b with Found _ _ _ _ _ _ => true | _ => false end.

End Extract.

Module Batch.

(** The records pushed on [results]: [success: true] with the
    embedding, or [success: false] with an error. *)
Inductive ItemResult : Type :=
  | ItemFound (index : Z) (embedding : list number) (inferenceTime : Z)
      (confidence : number)
  | ItemFailed (index : Z) (inferenceTime : Z) (error : string).

Definition index (r : ItemResult) : Z :=
  match r with ItemFound i _ _ _ | ItemFailed i _ _ => i end.

Definition success (r : ItemResult) : bool :=
  match r with ItemFound _ _ _ _ => true | ItemFailed _ _ _ => false end.

Definition error (r : ItemResult) : option string :=
  match r with ItemFound _ _ _ _ => None | ItemFailed _ _ e => Some e end.

Record Summary : Type := {
  total : Z;
  successful : Z;
  failed : Z;
  totalTime : Z;
  averageTime : number
}.

Inductive Body : Type :=
  | NotReady (error : string) (progress : gmap string string)
  | BadRequest (error : string)
  | Done (results : list ItemResult) (summary : Summary)
  | Failed (error : string).

End Batch.

(** The networks of [faceapi.nets]. *)
Inductive Net : Type :=
  | tinyFaceDetector
  | faceLandmark68Net
  | faceRecognitionNet
  | faceExpressionNet
  | ageGenderNet
  | ssdMobilenetv1.

#[global] Instance Net_eq_dec : EqDecision Net.
Proof. solve_decision. Defined.

(** What becomes of the server that [app.listen] creates: it listens
    and the callback of [app.listen] is called, or it emits an 'error'
    event (the port is taken, or may not be used), which nothing in the
    file handles. *)
Inductive Binding : Type :=
  | Bound
  | Unbound (e : Error).

(** ** The collaborators *)

(** The clock, the decoder, the detector and the console.  Each call
    may read and change the state of the [World]; decoding and detection
    may throw. *)
Class Runtime : Type := {
  World : Type;
  Image : Type;
  (** [Date.now()] *)
  now : World → Z * World;
  (** [canvas.loadImage(Buffer.from(payload, 'base64'))] *)
  decode : value → World → Completion Image * World;
  (** [faceapi.detectSingleFace(img, options).withFaceLandmarks().withFaceDescriptor()] *)
  infer : Image → DetectorOptions → World → Completion (option FaceDescription) * World;
  (** what the console writes for an [Error] object given as an
      argument: the text of [util.inspect], which is the stack of the
      error and starts with its name and its message *)
  inspect : Error → string
}.

Section Handlers.

Context {R : Runtime}.

(** What the code does that can be seen from outside: the calls it
    makes to the decoder and to the detector (with what came back), the
    lines it writes to the console and, outside the handlers, the calls
    to the loaders of the models and to [app.listen]. *)
Inductive Event : Type :=
  | Decoded (payload : value) (r : Completion Image)
  | Detected (o : DetectorOptions) (r : Completion (option FaceDescription))
  | Log (line : string)
  | Warn (line : string)
  | ErrorLog (line : string)
  | Loaded (n : Net) (url : string) (r : Completion unit)
  | Listened (port : string + Z) (r : Completion Binding).

(** The outcome of running a piece of handler code from a world. *)
Record Outcome (A : Type) : Type := {
  result : Completion A;
  after : World;
  events : list Event
}.
Global Arguments Build_Outcome {A} _ _ _.
Global Arguments result {A} _.
Global Arguments after {A} _.
Global Arguments events {A} _.

(** Handler code: a function of the world it starts in. *)
Definition M (A : Type) : Type := World → Outcome A.

Definition ret {A} (a : A) : M A :=
  fun w => {| result := Normal a; after := w; events := [] |}.

Definition bind {A B} (m : M A) (k : A → M B) : M B :=
  fun w =>
    match m w with
    | {| result := Normal a; after := w1; events := evs |} =>
        match k a w1 with
        | {| result := r; after := w2; events := evs' |} =>
            {| result := r; after := w2; events := evs ++ evs' |}
        end
    | {| result := Throw e; after := w1; events := evs |} =>
        {| result := Throw e; after := w1; events := evs |}
    end.

(** [try { m } catch (e) { h e }] as an expression. *)
Definition try_catch {A} (m : M A) (h : Error → M A) : M A :=
  fun w =>
    match m w with
    | {| result := Normal a; after := w1; events := evs |} =>
        {| result := Normal a; after := w1; events := evs |}
    | {| result := Throw e; after := w1; events := evs |} =>
        match h e w1 with
        | {| result := r; after := w2; events := evs' |} =>
            {| result := r; after := w2; events := evs ++ evs' |}
        end
    end.

Definition emit (e : Event) : M unit :=
  fun w => {| result := Normal tt; after := w; events := [e] |}.

Definition Date_now : M Z :=
  fun w => let '(t, w') := now w in
           {| result := Normal t; after := w'; events := [] |}.

Definition loadImage (payload : value) : M Image :=
  fun w => let '(r, w') := decode payload w in
           {| result := r; after := w'; events := [Decoded payload r] |}.

Definition detectSingleFace (img : Image) (o : DetectorOptions)
  : M (option FaceDescription) :=
  fun w => let '(r, w') := infer img o w in
           {| result := r; after := w'; events := [Detected o r] |}.

#[global] Instance M_ret : MRet M := @ret.
#[global] Instance M_bind : MBind M := fun A B k m => bind m k.

(** The console.  Several arguments are joined by a space, as
    [console.warn] does; an [Error] object given as an argument is
    written as [inspect] has it. *)
Definition console_log (line : string) : M unit := emit (Log line).
Definition console_warn (line : string) : M unit := emit (Warn line).
Definition console_error (line : string) : M unit := emit (ErrorLog line).

(** ** POST /extract_embedding *)

(** One turn of the loop over the strategies either leaves the loop
    ([break]) or goes on with the next strategy. *)
Inductive Turn : Type :=
  | Break (detection : option FaceDescription) (usedStrategy : string)
  | Next (detection : option FaceDescription).

(** The body of the [try] block of one turn. *)
Definition attempt (img : Image) (strategy : Strategy) : M Turn :=
  detectionStartTime ← Date_now;
  detection ← detectSingleFace img (options strategy);
  if has_descriptor detection then
    t ← Date_now;
    console_log ("Detection successful with " +:+ name strategy +:+ " in "
                 +:+ pretty (t - detectionStartTime) +:+ "ms");;
    mret (Break detection (name strategy))
  else mret (Next detection).

(** The line [console.warn] writes when an attempt throws. *)
Definition warning_line (strategy : Strategy) (err : Error) : string :=
  " Detection failed with " +:+ name strategy +:+ ": " +:+ message err.

(** One turn: the [try] block and, when it throws, the [catch] block,
    which warns and goes on ([continue]) with [detection] as it was. *)
Definition turn (img : Image) (strategy : Strategy)
    (detection : option FaceDescription) : M Turn :=
  try_catch (attempt img strategy)
    (fun err =>
       console_warn (warning_line strategy err);;
       mret (Next detection)).

(** [for (const strategy of detectionStrategies) {...}], started with
    the current value of the variable [detection]; the result is the
    final [detection] and [usedStrategy]. *)
Fixpoint strategy_loop (img : Image) (strategies : list Strategy)
    (detection : option FaceDescription)
  : M (option FaceDescription * option string) :=
  match strategies with
  | [] => mret (detection, None)
  | strategy :: rest =>
      t ← turn img strategy detection;
      match t with
      | Break d used => mret (d, Some used)
      | Next d => strategy_loop img rest d
      end
  end.

(** [const detectionStrategies = [...]] *)
Definition detectionStrategies : list Strategy := [
  {| name := "TinyFaceDetector_High";
     options := TinyFaceDetectorOptions 416 (of_Q (3 # 10)) |};
  {| name := "TinyFaceDetector_Medium";
     options := TinyFaceDetectorOptions 320 (of_Q (4 # 10)) |};
  {| name := "TinyFaceDetector_Low";
     options := TinyFaceDetectorOptions 224 (of_Q (5 # 10)) |};
  {| name := "SsdMobilenetv1";
     options := SsdMobilenetv1Options (of_Q (3 # 10)) |}
].

Definition roundBox (b : Box) : Box :=
  {| x := Math_round (x b); y := Math_round (y b);
     width := Math_round (width b); height := Math_round (height b) |}.

(** What follows the loop: the answer built from the final [detection]
    and [usedStrategy]. *)
Definition answer (detection : option FaceDescription)
    (usedStrategy : option string) (totalTime : Z)
  : M (Response Extract.Body) :=
  match described detection with
  | Some (fd, v) =>
      let response :=
        Extract.Found v totalTime usedStrategy
          (roundBox (box (faceapi.detection fd)))
          (or_number (score (faceapi.detection fd)) zero)
          (match landmarks fd with
           | Some l => Z.of_nat (length (positions l))
           | None => 0
           end) in
      console_log (" Embedding extracted successfully ("
                   +:+ pretty totalTime +:+ "ms)");;
      mret (Build_Response 200 response)
  | None =>
      let response :=
        Extract.NoFace "No face detected with any strategy" totalTime
          (name <$> detectionStrategies) in
      console_log (" Face detection failed (" +:+ pretty totalTime +:+ "ms)");;
      mret (Build_Response 200 response)
  end.

Definition extract_embedding (srv : Server) (req_body : gmap string value)
  : M (Response Extract.Body) :=
  if negb (modelsLoaded srv) then
    mret (Build_Response 503
            (Extract.NotReady "Models not loaded yet" (loadingProgress srv)))
  else
    startTime ← Date_now;
    try_catch
      (let image := property req_body "image" in
       if negb (truthy image) then
         mret (Build_Response 400
                 (Extract.BadRequest "No image provided in request body"))
       else
         loaded ← try_catch (img ← loadImage image; mret (inr img))
                     (fun _ =>
                        mret (inl (Build_Response 400
                                (Extract.BadRequest
                                   "Invalid image format or corrupted base64 data"))));
         match loaded with
         | inl early => mret early
         | inr img =>
             '(detection, usedStrategy) ←
                strategy_loop img detectionStrategies None;
             t ← Date_now;
             answer detection usedStrategy (t - startTime)
         end)
      (fun error =>
         t ← Date_now;
         console_error (" Extraction error: " +:+ inspect error);;
         mret (Build_Response 500 (Extract.Failed (message error) (t - startTime)))).


(** ** POST /batch_extract *)

(** [new faceapi.TinyFaceDetectorOptions({ inputSize: 416, scoreThreshold: 0.3 })] *)
Definition batchOptions : DetectorOptions :=
  TinyFaceDetectorOptions 416 (of_Q (3 # 10)).

(** The [try] block of turn [i]: the record it pushes on [results]. *)
Definition batch_try (i : Z) (payload : value) (imageStartTime : Z)
  : M Batch.ItemResult :=
  img ← loadImage payload;
  detection ← detectSingleFace img batchOptions;
  t ← Date_now;
  let imageTime := t - imageStartTime in
  match described detection with
  | Some (fd, v) =>
      mret (Batch.ItemFound i v imageTime
              (or_number (score (faceapi.detection fd)) zero))
  | None => mret (Batch.ItemFailed i imageTime "No face detected")
  end.

(** Turn [i] up to the progress line: the [try] block, and the record
    the [catch] block pushes instead when the [try] block throws. *)
Definition batch_item (i : Z) (payload : value) : M Batch.ItemResult :=
  imageStartTime ← Date_now;
  try_catch (batch_try i payload imageStartTime)
    (fun error =>
       t ← Date_now;
       mret (Batch.ItemFailed i (t - imageStartTime) (message error))).

(** [if ((i + 1) % 10 === 0) console.log(...)] *)
Definition progress_line (i n : Z) : M unit :=
  if bool_decide (Z.rem (i + 1) 10 = 0) then
    console_log (" Processed " +:+ pretty (i + 1) +:+ "/" +:+ pretty n
                 +:+ " images")
  else mret tt.

(** [for (let i = 0; i < images.length; i++) {...}], entered at index
    [i] with [todo] the elements from [i] on and [results] the records
    pushed so far; [n] is [images.length]. *)
Fixpoint batch_loop (n : Z) (todo : list value) (i : Z)
    (results : list Batch.ItemResult) : M (list Batch.ItemResult) :=
  match todo with
  | [] => mret results
  | payload :: todo' =>
      r ← batch_item i payload;
      progress_line i n;;
      batch_loop n todo' (i + 1) (results ++ [r])
  end.

Definition batch_extract (srv : Server) (req_body : gmap string value)
  : M (Response Batch.Body) :=
  if negb (modelsLoaded srv) then
    mret (Build_Response 503
            (Batch.NotReady "Models not loaded yet" (loadingProgress srv)))
  else
    try_catch
      (let images := property req_body "images" in
       if negb (truthy images) || negb (Array_isArray images) then
         mret (Build_Response 400 (Batch.BadRequest "Images array is required"))
       else
         let n := Z.of_nat (length (elements images)) in
         console_log (" Starting batch processing of " +:+ pretty n
                      +:+ " images");;
         startTime ← Date_now;
         results ← batch_loop n (elements images) 0 [];
         t ← Date_now;
         let totalTime := t - startTime in
         let successful := Z.of_nat (length (filter Batch.success results)) in
         console_log (" Batch processing complete: " +:+ pretty successful
                      +:+ "/" +:+ pretty n +:+ " successful in "
                      +:+ pretty totalTime +:+ "ms");;
         mret (Build_Response 200
                 (Batch.Done results
                    {| Batch.total := n;
                       Batch.successful := successful;
                       Batch.failed := n - successful;
                       Batch.totalTime := totalTime;
                       Batch.averageTime :=
                         Math_round (div (of_Z totalTime) (of_Z n)) |})))
      (fun error =>
         console_error (" Batch processing error: " +:+ inspect error);;
         mret (Build_Response 500 (Batch.Failed (message error)))).

End Handlers.

(** ** Reading a trace *)

Section Traces.

Context {R : Runtime}.

(** The calls to the detector in a trace, in order: the options of
    each attempt and what came back. *)
Definition attempts (evs : list Event)
  : list (DetectorOptions * Completion (option FaceDescription)) :=
  omap (fun e => match e with Detected o r => Some (o, r) | _ => None end) evs.

(** The calls to the decoder in a trace. *)
Definition decodings (evs : list Event) : list (value * Completion Image) :=
  omap (fun e => match e with Decoded p r => Some (p, r) | _ => None end) evs.

(** An attempt the handlers take as a success: it returned an object
    whose [descriptor] is there. *)
Definition usable (r : Completion (option FaceDescription)) : bool :=
  match r with
  | Normal d => has_descriptor d
  | Throw _ => false
  end.

(** A valid detection in the words of the specification: the
    descriptor is present and not empty. *)
Definition valid (r : Completion (option FaceDescription)) : Prop :=
  ∃ fd v, r = Normal (Some fd) ∧ descriptor fd = Some v ∧ v ≠ [].

(** The detector as face-api.js has it: the descriptor of a detection
    is the output of the recognition network, 128 numbers; the detector
    never returns a detection whose descriptor is an empty array. *)
Definition Genuine : Prop :=
  ∀ img o w fd,
    (infer img o w).1 = Normal (Some fd) → descriptor fd ≠ Some [].

(** Every detector call of a trace shows what the detector returned
    for the options of the call. *)
Definition from_detector (evs : list Event) : Prop :=
  Forall (fun a => ∃ img w, a.2 = (infer img a.1 w).1) (attempts evs).

(** The body of the answer built after the loop. *)
Definition answered (d : option FaceDescription) (used : option string)
    (totalTime : Z) : Extract.Body :=
  match described d with
  | Some (fd, v) =>
      Extract.Found v totalTime used
        (roundBox (box (faceapi.detection fd)))
        (or_number (score (faceapi.detection fd)) zero)
        (match landmarks fd with
         | Some l => Z.of_nat (length (positions l))
         | None => 0
         end)
  | None =>
      Extract.NoFace "No face detected with any strategy" totalTime
        (name <$> detectionStrategies)
  end.

(** The record a turn pushes, and the trace of the turn: [batch_item]
    run from some world. *)
Definition pushes (i : Z) (p : value) (r : Batch.ItemResult)
    (evs : list Event) : Prop :=
  ∃ w, result (batch_item i p w) = Normal r ∧ events (batch_item i p w) = evs.

(** The summary computed from the records and the elapsed time. *)
Definition summarised (n : Z) (results : list Batch.ItemResult) (totalTime : Z)
  : Batch.Summary :=
  let successful := Z.of_nat (length (filter Batch.success results)) in
  {| Batch.total := n;
     Batch.successful := successful;
     Batch.failed := n - successful;
     Batch.totalTime := totalTime;
     Batch.averageTime := Math_round (div (of_Z totalTime) (of_Z n)) |}.

(** A detection whose descriptor is there, whatever its length: what
    the test [detection && detection.descriptor] lets through. *)
Definition present (r : Completion (option FaceDescription)) : Prop :=
  ∃ fd v, r = Normal (Some fd) ∧ descriptor fd = Some v.

(** "The loop tries the strategies in order and stops at the first
    good answer": either some strategy [s] answered well, the attempts
    are those on the strategies up to [s], none before [s] answered well
    and [s] is the strategy used; or every strategy was attempted, none
    answered well, and no strategy is recorded. *)
Definition stops_at_first
    (good : Completion (option FaceDescription) → Prop)
    (strategies : list Strategy)
    (o : Outcome (option FaceDescription * option string)) : Prop :=
  (∃ tried s untried fails d,
      strategies = tried ++ s :: untried
      ∧ attempts (events o)
        = zip (options <$> tried) fails ++ [(options s, Normal d)]
      ∧ length fails = length tried
      ∧ Forall (fun r => ¬ good r) fails
      ∧ good (Normal d)
      ∧ result o = Normal (d, Some (name s)))
  ∨ (∃ fails d,
      attempts (events o) = zip (options <$> strategies) fails
      ∧ length fails = length strategies
      ∧ Forall (fun r => ¬ good r) fails
      ∧ result o = Normal (d, None)).

(** "Every configured strategy was tried and none gave a good answer." *)
Definition exhausted_without
    (good : Completion (option FaceDescription) → Prop)
    (evs : list Event) : Prop :=
  (attempts evs).*1 = options <$> detectionStrategies
  ∧ Forall (fun r => ¬ good r) (attempts evs).*2.

(** The answer when no face was found. *)
Definition no_face (resp : Response Extract.Body) : Prop :=
  status resp = 200
  ∧ Extract.success (body resp) = false
  ∧ ∃ t, body resp = Extract.NoFace "No face detected with any strategy" t
                       (name <$> detectionStrategies).



(** "The turn of a picture uses the one fixed configuration, and what
    fails under it is recorded as failed": the picture is decoded once;
    when the decoding throws, the detector is not called and the record
    is a failure with the message thrown; when it does not, the detector
    is called exactly once, with the fast detector at resolution 416 and
    threshold 0.3, and no other configuration is tried: the record is a
    success exactly when that one call returned a detection with a
    descriptor, which is then the embedding of the record, and
    otherwise a failure with the message thrown by the call or with
    "No face detected". *)
Definition one_configuration (i : Z) (p : value) (r : Batch.ItemResult)
    (evs : list Event) : Prop :=
  (∃ e t, decodings evs = [(p, Throw e)]
          ∧ attempts evs = []
          ∧ r = Batch.ItemFailed i t (message e))
  ∨ (∃ img a, decodings evs = [(p, Normal img)]
              ∧ attempts evs
                = [(TinyFaceDetectorOptions 416 (of_Q (3 # 10)), a)]
              ∧ Batch.success r = usable a
              ∧ (∀ fd v, a = Normal (Some fd) → descriptor fd = Some v →
                   ∃ t c, r = Batch.ItemFound i v t c)
              ∧ (∀ e, a = Throw e →
                   ∃ t, r = Batch.ItemFailed i t (message e))
              ∧ (∀ d, a = Normal d → usable a = false →
                   ∃ t, r = Batch.ItemFailed i t "No face detected")).

(** The confidence reported for a detection: its score, and 0.0 when
    the score is missing. *)
Definition reports (confidence : number) (fd : FaceDescription) : Prop :=
  (score (faceapi.detection fd) = None → confidence = zero)
  ∧ (∀ s, score (faceapi.detection fd) = Some s → s ≠ NaN → confidence = s).

(** The detector family, the input resolution (the fast detector has
    one) and the threshold of a configuration. *)
Inductive Family : Type := TinyFaceDetector | SsdMobilenetv1.

Definition family (o : DetectorOptions) : Family :=
  match o with
  | TinyFaceDetectorOptions _ _ => TinyFaceDetector
  | SsdMobilenetv1Options _ => SsdMobilenetv1
  end.

Definition resolution (o : DetectorOptions) : option Z :=
  match o with
  | TinyFaceDetectorOptions size _ => Some size
  | SsdMobilenetv1Options _ => None
  end.

Definition threshold (o : DetectorOptions) : number :=
  match o with
  | TinyFaceDetectorOptions _ t => t
  | SsdMobilenetv1Options t => t
  end.

End Traces.

(** ** A runtime to run the handlers on *)

Module Demo.

(** A descriptor: 128 numbers. *)
Definition vector : list number :=
  [of_Q (1 # 8); of_Q (-3 # 4); of_Q (1 # 2)] ++ replicate 125 (of_Q (1 # 16)).

Definition face (v : option (list number)) (s : option number) : FaceDescription :=
  {| detection := {| box := {| x := of_Q (21 # 2); y := of_Q (7 # 4);
                               width := of_Z 100; height := of_Q (401 # 4) |};
                     score := s |};
     landmarks := Some {| positions := replicate 3 (zero, zero) |};
     descriptor := v |}.

Definition is_ssd (o : DetectorOptions) : bool :=
  match o with SsdMobilenetv1Options _ => true | _ => false end.

Definition is_high (o : DetectorOptions) : bool :=
  match o with TinyFaceDetectorOptions 416 _ => true | _ => false end.

(** The detector of the demonstration, by the name of the picture. *)
Definition detector (img : string) (o : DetectorOptions)
  : Completion (option FaceDescription) :=
  if String.eqb img "frontal" then
    Normal (Some (face (Some vector) (Some (of_Q (9 # 10)))))
  else if String.eqb img "unscored" then
    Normal (Some (face (Some vector) None))
  else if String.eqb img "profile" then
    (if is_ssd o then Normal (Some (face (Some vector) (Some (of_Q (6 # 10)))))
     else Normal None)
  else if String.eqb img "flaky" then
    (if is_high o then Throw {| message := "tensor disposed" |}
     else Normal (Some (face (Some vector) (Some (of_Q (7 # 10))))))
  else if String.eqb img "smudge" then
    (if is_high o then Normal None
     else Normal (Some (face (Some vector) (Some (of_Q (8 # 10))))))
  else if String.eqb img "undescribed" then
    Normal (Some (face None (Some (of_Q (5 # 10)))))
  else Normal None.

(** The decoder of the demonstration: a string names a picture, except
    ["garbage"]; anything else is refused. *)
Definition decoder (payload : value) : Completion string :=
  match payload with
  | VString s =>
      if String.eqb s "garbage"
      then Throw {| message := "Unsupported image type" |}
      else Normal s
  | _ => Throw {| message := "The first argument must be of type string" |}
  end.

(** The world is the clock; every reading takes 5 ms.  An error is
    written with its name, its message and one line of stack. *)
#[export] Instance runtime : Runtime := {|
  World := Z;
  Image := string;
  now w := (w, w + 5);
  decode payload w := (decoder payload, w);
  infer img o w := (detector img o, w);
  inspect e := "Error: " +:+ message e +:+ " at faceapi_server.js"
|}.

Definition ready : Server :=
  {| modelsLoaded := true;
     loadingProgress := {[ "TinyFaceDetector" := "loaded" ]} |}.

Definition loading : Server :=
  {| modelsLoaded := false;
     loadingProgress := {[ "TinyFaceDetector" := "loaded" ]} |}.

Definition single (picture : string) : gmap string value :=
  {[ "image" := VString picture ]}.

Definition many (pictures : list string) : gmap string value :=
  {[ "images" := VArray (VString <$> pictures) ]}.

(** A batch of three pictures: a face, a smudge, which the fast
    detector misses at resolution 416, and a file that does not
    decode. *)
Definition trio : list value :=
  [VString "frontal"; VString "smudge"; VString "garbage"].

End Demo.



(** ** The rest of the server: model loading, monitoring, routing *)

(** [loadingProgress]: an object with string values, its keys in the
    order they were first assigned ([Object.keys] lists them so). *)
Module Obj.

Definition t : Type := list (string * string).

(** [o[k] = v] *)
Fixpoint set (o : t) (k v : string) : t :=
  match o with
  | [] => [(k, v)]
  | (k', v') :: o' =>
      if decide (k = k') then (k, v) :: o' else (k', v') :: set o' k v
  end.

(** [o[k]] *)
Fixpoint get (o : t) (k : string) : option string :=
  match o with
  | [] => None
  | (k', v') :: o' => if decide (k = k') then Some v' else get o' k
  end.

(** [Object.keys(o)] *)
Definition keys (o : t) : list string := o.*1.

End Obj.

(** Whether an awaited call returned rather than threw. *)
Definition resolved {A} (c : Completion A) : bool :=
  match c with Normal _ => true | Throw _ => false end.

(** [inferenceTime] of a record of a batch, and of an answer of
    [/extract_embedding] that has one. *)
Definition item_time (r : Batch.ItemResult) : Z :=
  match r with
  | Batch.ItemFound _ _ t _ | Batch.ItemFailed _ t _ => t
  end.

Definition answer_time (b : Extract.Body) : option Z :=
  match b with
  | Extract.Found _ t _ _ _ _ | Extract.NoFace _ t _ | Extract.Failed _ t => Some t
  | Extract.NotReady _ _ | Extract.BadRequest _ => None
  end.

(** A clock that does not run backwards: [time w] is what [Date.now()]
    reads in the world [w], and no call of a collaborator sets it
    back. *)
Record Monotone {R : Runtime} (time : World → Z) : Prop := {
  now_time : ∀ w, (now w).1 = time w;
  now_later : ∀ w, time w ≤ time (now w).2;
  decode_later : ∀ p w, time w ≤ time (decode p w).2;
  infer_later : ∀ img o w, time w ≤ time (infer img o w).2
}.

(** The two variables of the module, [modelsLoaded] and
    [loadingProgress], as the code after the handlers reads and writes
    them. *)
Record Globals : Type := {
  loaded : bool;
  progress : Obj.t
}.

(** What the two POST handlers read of the variables. *)
Definition snapshot (g : Globals) : Server :=
  {| modelsLoaded := loaded g; loadingProgress := list_to_map (progress g) |}.

(** An entry of [modelLoaders]: [loader] is
    [() => faceapi.nets.<net>.loadFromDisk(MODEL_URL)]. *)
Record ModelLoader : Type := { model : string; net : Net }.

(** [process.memoryUsage()], in bytes. *)
Record MemoryUsage : Type := {
  rss : Z;
  heapTotal : Z;
  heapUsed : Z;
  external : Z;
  arrayBuffers : Z
}.

Inductive Verb : Type := GET | POST.

Module Wire.

(** A request as it arrives: its method, its path, its headers and the
    text of its body. *)
Record t : Type := {
  method : string;
  path : string;
  headers : list (string * string);
  content : string
}.

End Wire.

Module Req.

(** A request as it leaves the body parsers: [req.method], [req.path]
    and [req.body]. *)
Record t : Type := {
  method : string;
  path : string;
  body : gmap string value
}.

End Req.

Module Health.

Record Memory : Type := { rss : string; heapTotal : string; heapUsed : string }.

Record Body : Type := {
  status : string;
  timestamp : string;
  uptime : number;
  modelsLoaded : bool;
  loadingProgress : Obj.t;
  memory : Memory;
  nodeVersion : string
}.

End Health.

Module Models.

Record Body : Type := {
  modelsLoaded : bool;
  loadingProgress : Obj.t;
  availableModels : list string
}.

End Models.

Module Stats.

Record Body : Type := {
  modelsLoaded : bool;
  uptime : number;
  memory : MemoryUsage;
  loadingProgress : Obj.t
}.

End Stats.

(** What a response carries: the text of [sendStatus], or one of the
    objects given to [res.json]. *)
Inductive Payload : Type :=
  | Text (text : string)
  | HealthReport (b : Health.Body)
  | ModelsReport (b : Models.Body)
  | Extracted (b : Extract.Body)
  | Batched (b : Batch.Body)
  | StatsReport (b : Stats.Body)
  | InternalError (error : string) (message : string)
  | NotFound (error : string) (availableEndpoints : list string).

(** A response with the headers set by [res.header]. *)
Record Reply : Type := {
  headers : list (string * string);
  response : Response Payload
}.

(** How the process ends its start: the server listens on the port,
    the code called [process.exit(code)], or the process died of the
    'error' event of the server, which nothing handles. *)
Inductive Started : Type :=
  | Listening (port : string + Z) (g : Globals)
  | Exited (code : Z)
  | Crashed (e : Error).

(** The collaborators of the code around the two POST handlers: the
    model files, the process, the formatting of dates, and of Express
    the body parsers, the matching of a request against a route and the
    opening of the port. *)
Class Host (R : Runtime) : Type := {
  (** [faceapi.nets.<net>.loadFromDisk(url)] *)
  loadFromDisk : Net → string → World → Completion unit * World;
  (** [app.listen(port, callback)]: the call throws (a port that is no
      port number), or returns a server, which then listens or not *)
  listen : string + Z → World → Completion Binding * World;
  (** [express.json({ limit: '50mb' })] followed by
      [express.urlencoded({ extended: true, limit: '50mb' })]: the body
      they leave in [req.body], or the error one of them hands over
      (a body that is no JSON, a body above the limit) *)
  bodyParser : Wire.t → Completion (gmap string value);
  (** [process.memoryUsage()] *)
  memoryUsage : World → MemoryUsage * World;
  (** [process.uptime()] *)
  uptime : World → number * World;
  (** [process.version] *)
  version : string;
  (** [toISOString()] of the date of a clock reading *)
  toISOString : Z → string;
  (** whether [app.get(route, ...)] or [app.post(route, ...)] takes the
      request *)
  routed : Verb → string → Req.t → bool
}.

Section Service.

Context {R : Runtime} {H : Host R}.

(** *** Loading the models *)

(** [const MODEL_URL = './models'] *)
Definition MODEL_URL : string := "./models".

(** The line feed of ['\n']. *)
Definition LF : string := String (Ascii.ascii_of_nat 10) EmptyString.

Definition modelLoaders : list ModelLoader := [
  {| model := "TinyFaceDetector"; net := tinyFaceDetector |};
  {| model := "FaceLandmark68Net"; net := faceLandmark68Net |};
  {| model := "FaceRecognitionNet"; net := faceRecognitionNet |};
  {| model := "FaceExpressionNet"; net := faceExpressionNet |};
  {| model := "AgeGenderNet"; net := ageGenderNet |};
  {| model := "SsdMobilenetv1"; net := ssdMobilenetv1 |}
].

(** [await model.loader()] *)
Definition run_loader (m : ModelLoader) : M unit :=
  fun w => let '(r, w') := loadFromDisk (net m) MODEL_URL w in
           {| result := r; after := w';
              events := [Loaded (net m) MODEL_URL r] |}.

(** One turn of the loop over [modelLoaders]: the [try] block and the
    [catch] block, which marks the model as failed and throws the error
    again.  The turn gives the error thrown again, if any, and
    [loadingProgress] as the turn leaves it. *)
Definition load_turn (m : ModelLoader) (progress : Obj.t)
  : M (Completion unit * Obj.t) :=
  try_catch
    (console_log ("  Loading " +:+ model m +:+ "...");;
     run_loader m;;
     console_log (model m +:+ " loaded successfully");;
     mret (Normal tt, Obj.set progress (model m) "loaded"))
    (fun error =>
       console_error ("Failed to load " +:+ model m +:+ ": " +:+ message error);;
       mret (Throw error, Obj.set progress (model m) "failed")).

(** [for (const model of modelLoaders) {...}]: left at the first turn
    that throws. *)
Fixpoint load_loop (models : list ModelLoader) (progress : Obj.t)
  : M (Completion unit * Obj.t) :=
  match models with
  | [] => mret (Normal tt, progress)
  | m :: rest =>
      '(r, progress) ← load_turn m progress;
      match r with
      | Normal _ => load_loop rest progress
      | Throw error => mret (Throw error, progress)
      end
  end.

(** The trace of a turn that loads its model, and of a turn whose
    loader throws. *)
Definition loaded_lines (m : ModelLoader) : list Event :=
  [Log ("  Loading " +:+ model m +:+ "...");
   Loaded (net m) MODEL_URL (Normal tt);
   Log (model m +:+ " loaded successfully")].

Definition failed_lines (m : ModelLoader) (error : Error) : list Event :=
  [Log ("  Loading " +:+ model m +:+ "...");
   Loaded (net m) MODEL_URL (Throw error);
   ErrorLog ("Failed to load " +:+ model m +:+ ": " +:+ message error)].

(** The calls to the loaders in a trace, in order. *)
Definition loadings (evs : list Event) : list (Net * string * Completion unit) :=
  omap (fun e => match e with Loaded n url r => Some (n, url, r) | _ => None end)
    evs.

(** The calls to [app.listen] in a trace. *)
Definition listenings (evs : list Event)
  : list ((string + Z) * Completion Binding) :=
  omap (fun e => match e with Listened port r => Some (port, r) | _ => None end)
    evs.

(** [loadingProgress] after the models [ms] were marked as loaded, one
    after the other. *)
Definition marked (ms : list ModelLoader) (progress : Obj.t) : Obj.t :=
  foldl (fun o m => Obj.set o (model m) "loaded") progress ms.

(** [async function loadModels()]: what it returns and the variables
    as it leaves them. *)
Definition loadModels (g : Globals) : M (bool * Globals) :=
  console_log (LF +:+ " Loading face-api.js models...");;
  startTime ← Date_now;
  '(r, progress) ← load_loop modelLoaders (progress g);
  match r with
  | Normal _ =>
      endTime ← Date_now;
      console_log (LF +:+ " All models loaded successfully in "
                   +:+ pretty (endTime - startTime) +:+ "ms");;
      mret (true, {| loaded := true; progress := progress |})
  | Throw error =>
      console_error (" Error loading models: " +:+ inspect error);;
      mret (false, {| loaded := false; progress := progress |})
  end.

(** *** Starting the server *)

(** [process.env.PORT || 5000]: the variable, a string, unless it is
    missing or empty. *)
Definition PORT (env_PORT : option string) : string + Z :=
  match env_PORT with
  | Some s => if String.eqb s "" then inr 5000 else inl s
  | None => inr 5000
  end.

(** [`${PORT}`] *)
Definition port_text (port : string + Z) : string :=
  match port with inl s => s | inr n => pretty n end.

(** ['='.repeat(60)] *)
Definition rule : string := String.concat "" (replicate 60 "=").

(** [app.listen(port, ...)], up to the callback. *)
Definition app_listen (port : string + Z) : M Binding :=
  fun w => let '(r, w') := listen port w in
           {| result := r; after := w'; events := [Listened port r] |}.

(** The callback of [app.listen]. *)
Definition banner (port : string + Z) : M unit :=
  console_log (LF +:+ rule);;
  console_log " FACE-API.JS SERVER READY";;
  console_log rule;;
  console_log (" Server URL: http://localhost:" +:+ port_text port);;
  console_log (" Health check: http://localhost:" +:+ port_text port +:+ "/health");;
  console_log (" Models status: http://localhost:" +:+ port_text port +:+ "/models");;
  console_log (" Statistics: http://localhost:" +:+ port_text port +:+ "/stats");;
  console_log rule.

(** The end of the file: the three lines, then
    [loadModels().then(...).catch(...)].  What [app.listen] throws
    inside the callback of [then] is caught by [catch]; the callback of
    [app.listen] runs once the server listens; a server that does not
    come to listen ends the process without any line of the file being
    run. *)
Definition start (env_PORT : option string) (g : Globals) : M Started :=
  let port := PORT env_PORT in
  console_log " Starting Face-api.js server...";;
  console_log (" Port: " +:+ port_text port);;
  console_log (" Models path: " +:+ MODEL_URL);;
  try_catch
    ('(success, g') ← loadModels g;
     if success : bool then
       server ← app_listen port;
       match server with
       | Bound =>
           banner port;;
           mret (Listening port g')
       | Unbound error => mret (Crashed error)
       end
     else
       console_error " Failed to load models. Server not started.";;
       console_error " Make sure all model files are in the ./models directory";;
       mret (Exited 1))
    (fun error =>
       console_error (" Fatal error during startup: " +:+ inspect error);;
       mret (Exited 1)).

(** *** The monitoring endpoints *)

Definition process_memoryUsage : M MemoryUsage :=
  fun w => let '(m, w') := memoryUsage w in
           {| result := Normal m; after := w'; events := [] |}.

Definition process_uptime : M number :=
  fun w => let '(u, w') := uptime w in
           {| result := Normal u; after := w'; events := [] |}.

(** [new Date().toISOString()] *)
Definition Date_toISOString : M string :=
  t ← Date_now; mret (toISOString t).

(** The text of [Math.round(n)] in a string concatenation: the digits
    of the integer (for integers below 10^21 in size, which JavaScript
    writes without an exponent). *)
Definition rounded_text (n : number) : string :=
  match Math_round n with
  | NaN => "NaN"
  | Infinity false => "Infinity"
  | Infinity true => "-Infinity"
  | Finite q => pretty (Qfloor q)
  end.

(** [Math.round(bytes / 1024 / 1024) + ' MB'] *)
Definition megabytes (bytes : Z) : string :=
  rounded_text (div (div (of_Z bytes) (of_Z 1024)) (of_Z 1024)) +:+ " MB".

(** [app.get('/health', ...)] *)
Definition health (g : Globals) : M (Response Payload) :=
  memUsage ← process_memoryUsage;
  timestamp ← Date_toISOString;
  up ← process_uptime;
  mret (Build_Response 200 (HealthReport
    {| Health.status := "ok";
       Health.timestamp := timestamp;
       Health.uptime := up;
       Health.modelsLoaded := loaded g;
       Health.loadingProgress := progress g;
       Health.memory :=
         {| Health.rss := megabytes (rss memUsage);
            Health.heapTotal := megabytes (heapTotal memUsage);
            Health.heapUsed := megabytes (heapUsed memUsage) |};
       Health.nodeVersion := version |})).

(** [app.get('/models', ...)] *)
Definition models (g : Globals) : M (Response Payload) :=
  mret (Build_Response 200 (ModelsReport
    {| Models.modelsLoaded := loaded g;
       Models.loadingProgress := progress g;
       Models.availableModels := Obj.keys (progress g) |})).

(** [app.get('/stats', ...)] *)
Definition stats (g : Globals) : M (Response Payload) :=
  up ← process_uptime;
  mem ← process_memoryUsage;
  mret (Build_Response 200 (StatsReport
    {| Stats.modelsLoaded := loaded g;
       Stats.uptime := up;
       Stats.memory := mem;
       Stats.loadingProgress := progress g |})).

(** *** The chain of middleware and routes *)

(** The three headers of the CORS middleware. *)
Definition cors_headers : list (string * string) := [
  ("Access-Control-Allow-Origin", "*");
  ("Access-Control-Allow-Methods", "GET, POST, PUT, DELETE, OPTIONS");
  ("Access-Control-Allow-Headers",
   "Origin, X-Requested-With, Content-Type, Accept, Authorization")
].

(** The 404 handler, [app.use('*', ...)]. *)
Definition not_found : Response Payload :=
  Build_Response 404
    (NotFound "Endpoint not found"
       ["/health"; "/models"; "/extract_embedding"; "/batch_extract"; "/stats"]).

(** The routes in the order they are registered; the first that takes
    the request answers it, the 404 handler takes what is left. *)
Definition routes (g : Globals) (req : Req.t) : M (Response Payload) :=
  if routed GET "/health" req then health g
  else if routed GET "/models" req then models g
  else if routed POST "/extract_embedding" req then
    r ← extract_embedding (snapshot g) (Req.body req);
    mret (Build_Response (status r) (Extracted (body r)))
  else if routed POST "/batch_extract" req then
    r ← batch_extract (snapshot g) (Req.body req);
    mret (Build_Response (status r) (Batched (body r)))
  else if routed GET "/stats" req then stats g
  else mret not_found.

(** A request that left the body parsers, through the CORS middleware,
    the logging middleware and the routes. *)
Definition dispatch (g : Globals) (req : Req.t) : M Reply :=
  if String.eqb (Req.method req) "OPTIONS" then
    mret {| headers := cors_headers;
            response := Build_Response 200 (Text "OK") |}
  else
    timestamp ← Date_toISOString;
    console_log (timestamp +:+ " - " +:+ Req.method req +:+ " " +:+ Req.path req);;
    r ← routes g req;
    mret {| headers := cors_headers; response := r |}.

(** The error-handling middleware, [app.use((error, req, res, next) =>
    ...)], with the error handed over before any header was set. *)
Definition error_handler (error : Error) : M Reply :=
  console_error (" Unhandled error: " +:+ inspect error);;
  mret {| headers := [];
          response :=
            Build_Response 500
              (InternalError "Internal server error" (message error)) |}.

(** The request as [req] has it once its body is parsed. *)
Definition parsed (wire : Wire.t) (body : gmap string value) : Req.t :=
  {| Req.method := Wire.method wire; Req.path := Wire.path wire;
     Req.body := body |}.

(** [app], the whole chain: the body parsers come first.  When one of
    them hands an error over, Express skips the CORS middleware, the
    logging middleware and the routes and calls the error-handling
    middleware; otherwise the request goes on with its parsed body.
    Nothing after the parsers hands an error over. *)
Definition app (g : Globals) (wire : Wire.t) : M Reply :=
  match bodyParser wire with
  | Normal body => dispatch g (parsed wire body)
  | Throw error => error_handler error
  end.

End Service.

(** ** A host to run the rest of the server on *)

Module DemoHost.

(** The model files of the listed networks are missing; each load
    takes 100 ms. *)
Definition load (missing : list Net) (n : Net) (url : string) (w : Z)
  : Completion unit * Z :=
  (if bool_decide (n ∈ missing)
   then Throw {| message := "ENOENT: no such file or directory" |}
   else Normal tt, w + 100).

Definition memory (w : Z) : MemoryUsage * Z :=
  ({| rss := 52953088; heapTotal := 20185088; heapUsed := 1572864;
      external := 1000; arrayBuffers := 10 |}, w).

Definition up (w : Z) : number * Z := (of_Q (5 # 2), w).

(** A route takes a request with its method and exactly its path. *)
Definition exact (verb : Verb) (route : string) (req : Req.t) : bool :=
  String.eqb (Req.method req)
    (match verb with GET => "GET" | POST => "POST" end)
  && String.eqb (Req.path req) route.

(** [app.listen] with the port as the environment gives it: a string
    that is no port number makes the call throw, a port below 1024 may
    not be opened, any other port is. *)
Definition open (port : string + Z) (w : Z) : Completion Binding * Z :=
  (match port with
   | inl "99999" =>
       Throw {| message := "options.port should be >= 0 and < 65536" |}
   | inl "80" =>
       Normal (Unbound {| message := "listen EACCES: permission denied" |})
   | _ => Normal Bound
   end, w + 10).

(** The body parsers of the demonstration: no body gives the empty
    object, the form [image=frontal] an object with that image, and
    anything else is refused. *)
Definition parse (wire : Wire.t) : Completion (gmap string value) :=
  if String.eqb (Wire.content wire) "" then Normal ∅
  else if String.eqb (Wire.content wire) "image=frontal"
  then Normal (Demo.single "frontal")
  else Throw {| message := "Unexpected end of JSON input" |}.

(** Memory and uptime are fixed; a date is written as its
    milliseconds. *)
Definition host (missing : list Net) : Host Demo.runtime :=
  @Build_Host Demo.runtime (load missing) open parse memory up "v18.17.0"
    pretty exact.

(** Every model file is there. *)
Definition complete : Host Demo.runtime := host [].

(** The files of two networks are missing. *)
Definition incomplete : Host Demo.runtime :=
  host [faceRecognitionNet; ageGenderNet].

Definition fresh : Globals := {| loaded := false; progress := [] |}.

(** The clock of the demonstration is the world itself. *)
Definition clock (w : Z) : Z := w.

Definition request (method path : string) : Req.t :=
  {| Req.method := method; Req.path := path; Req.body := ∅ |}.

(** A request as it arrives, with the text of its body. *)
Definition incoming (method path content : string) : Wire.t :=
  {| Wire.method := method; Wire.path := path;
     Wire.headers := [("Content-Type", "application/json")];
     Wire.content := content |}.

End DemoHost.

(** ** Lemmas on traces and on the monad *)

Section Stepping.

Context {R : Runtime}.

Lemma attempts_app evs1 evs2 :
  attempts (evs1 ++ evs2) = attempts evs1 ++ attempts evs2.
Proof. apply omap_app. Qed.

Lemma decodings_app evs1 evs2 :
  decodings (evs1 ++ evs2) = decodings evs1 ++ decodings evs2.
Proof. apply omap_app. Qed.

Lemma has_descriptor_described d :
  has_descriptor d = true ↔ is_Some (described d).
Proof.
  destruct d as [fd|]; simpl.
  - rewrite bool_decide_eq_true. destruct (descriptor fd); simpl.
    + split; eauto.
    + split; intros [? ?]; discriminate.
  - split; [discriminate | intros [? ?]; discriminate].
Qed.

Lemma valid_usable r : valid r → usable r = true.
Proof.
  intros (fd & v & -> & Hv & _). simpl. rewrite bool_decide_eq_true. eauto.
Qed.

(** *** The monad, run *)

Lemma run_ret {A} (a : A) w :
  (mret a : M A) w = {| result := Normal a; after := w; events := [] |}.
Proof. reflexivity. Qed.

Lemma run_bind {A B} (m : M A) (k : A → M B) w :
  ((m ≫= k) : M B) w =
  match result (m w) with
  | Normal a =>
      {| result := result (k a (after (m w)));
         after := after (k a (after (m w)));
         events := events (m w) ++ events (k a (after (m w))) |}
  | Throw e =>
      {| result := Throw e; after := after (m w); events := events (m w) |}
  end.
Proof.
  unfold mbind, M_bind, bind. destruct (m w) as [[a|e] w1 evs]; simpl; [|done].
  by destruct (k a w1).
Qed.

(** *** One turn of the fallback loop *)

Lemma turn_run img strategy d w :
  turn img strategy d w =
  let '(t0, w1) := now w in
  let '(r, w2) := infer img (options strategy) w1 in
  match r with
  | Normal d' =>
      if has_descriptor d' then
        let '(t1, w3) := now w2 in
        {| result := Normal (Break d' (name strategy)); after := w3;
           events := [Detected (options strategy) r;
                      Log ("Detection successful with " +:+ name strategy
                           +:+ " in " +:+ pretty (t1 - t0) +:+ "ms")] |}
      else
        {| result := Normal (Next d'); after := w2;
           events := [Detected (options strategy) r] |}
  | Throw e =>
      {| result := Normal (Next d); after := w2;
         events := [Detected (options strategy) r;
                    Warn (warning_line strategy e)] |}
  end.
Proof.
  unfold turn, try_catch, attempt, mbind, M_bind, bind, Date_now,
    detectSingleFace, console_log, console_warn, emit, mret, M_ret, ret.
  simpl.
  destruct (now w) as [t0 w1]; simpl.
  destruct (infer img (options strategy) w1) as [[d'|e] w2]; simpl; [|done].
  destruct (has_descriptor d'); simpl; [|done].
  destruct (now w2) as [t1 w3]; simpl. done.
Qed.

(** *** Where the answers of a trace come from *)

Lemma valid_present r : valid r → present r.
Proof. intros (fd & v & ? & ? & _). by exists fd, v. Qed.

(** With a genuine detector, a descriptor that is present in what the
    detector returned is not empty. *)
Lemma genuine_attempts evs :
  Genuine → from_detector evs →
  Forall (fun a => present a.2 → valid a.2) (attempts evs).
Proof.
  intros Hgen Hfrom. eapply Forall_impl; [exact Hfrom|].
  intros [o r] (img & w & Hr) (fd & v & Hfd & Hv). simpl in *.
  exists fd, v. split_and!; try done. intros ->.
  eapply Hgen; [|done]. by rewrite <- Hr, Hfd.
Qed.

Lemma turn_from_detector img strategy d w :
  ∃ t, result (turn img strategy d w) = Normal t
       ∧ from_detector (events (turn img strategy d w)).
Proof.
  rewrite turn_run. destruct (now w) as [t0 w1].
  destruct (infer img (options strategy) w1) as [[d'|e] w2] eqn:Hi.
  - destruct (has_descriptor d').
    + destruct (now w2) as [t1 w3]. eexists. split; [reflexivity|].
      constructor; [|constructor]. exists img, w1. simpl. by rewrite Hi.
    + eexists. split; [reflexivity|].
      constructor; [|constructor]. exists img, w1. simpl. by rewrite Hi.
  - eexists. split; [reflexivity|].
    constructor; [|constructor]. exists img, w1. simpl. by rewrite Hi.
Qed.

Lemma strategy_loop_from_detector strategies : ∀ img d w,
  from_detector (events (strategy_loop img strategies d w)).
Proof.
  induction strategies as [|s rest IH]; intros img d w; simpl.
  { constructor. }
  rewrite run_bind.
  destruct (turn_from_detector img s d w) as (t & -> & Hturn).
  cbn [events]. unfold from_detector. rewrite attempts_app.
  apply Forall_app. split; [done|].
  destruct t as [d' used|d']; [constructor|apply IH].
Qed.

(** *** The fallback loop, attempt by attempt *)

(** [rs] lists what the detector answered at each attempt the loop
    made.  The attempts follow the strategies in order; every throw left
    a warning; and either the last answer carries a descriptor, the loop
    stopped there and all earlier answers were unusable, or every
    strategy was attempted and none was usable. *)
Lemma strategy_loop_run strategies : ∀ img d0 w,
  has_descriptor d0 = false →
  let o := strategy_loop img strategies d0 w in
  ∃ rs,
    attempts (events o) = zip (options <$> strategies) rs
    ∧ decodings (events o) = []
    ∧ (∀ j s e, strategies !! j = Some s → rs !! j = Some (Throw e) →
         Warn (warning_line s e) ∈ events o)
    ∧ ((∃ tried s untried fails fd,
          strategies = tried ++ s :: untried
          ∧ rs = fails ++ [Normal (Some fd)]
          ∧ length fails = length tried
          ∧ Forall (fun r => usable r = false) fails
          ∧ is_Some (descriptor fd)
          ∧ result o = Normal (Some fd, Some (name s)))
       ∨ (length rs = length strategies
          ∧ Forall (fun r => usable r = false) rs
          ∧ ∃ d, has_descriptor d = false ∧ result o = Normal (d, None))).
Proof.
  induction strategies as [|s rest IH]; intros img d0 w Hd0; simpl.
  - exists []. split_and!; try done. right. split_and!; eauto.
  - rewrite run_bind, turn_run.
    destruct (now w) as [t0 w1].
    destruct (infer img (options s) w1) as [[d'|e] w2].
    + destruct (has_descriptor d') eqn:Hd'.
      * destruct (now w2) as [t1 w3]. simpl.
        exists [Normal d']. split_and!; try done.
        { by destruct rest. }
        { intros [|j] s' e' _ Hj; simplify_eq/=. }
        left. destruct d' as [fd|]; [|done].
        exists [], s, rest, [], fd. split_and!; try done.
        simpl in Hd'. by apply bool_decide_eq_true in Hd'.
      * simpl. destruct (IH img d' w2 Hd') as (rs & Hat & Hdec & Hwarn & Hend).
        exists (Normal d' :: rs). split_and!.
        { simpl. by rewrite Hat. }
        { done. }
        { intros [|j] s' e' Hs Hj; simplify_eq/=.
          apply elem_of_cons. right. eauto. }
        destruct Hend as [(tried & s' & untried & fails & fd & -> & -> & Hlen & Hf & Hfd & Hres)
                         |(Hlen & Hf & d & Hd & Hres)].
        -- left. exists (s :: tried), s', untried, (Normal d' :: fails), fd.
           split_and!; try done.
           ++ simpl. by rewrite Hlen.
           ++ by constructor.
        -- right. split_and!.
           ++ simpl. by rewrite Hlen.
           ++ by constructor.
           ++ eauto.
    + simpl. destruct (IH img d0 w2 Hd0) as (rs & Hat & Hdec & Hwarn & Hend).
      exists (Throw e :: rs). split_and!.
      { simpl. by rewrite Hat. }
      { done. }
      { intros [|j] s' e' Hs Hj; simplify_eq/=.
        - apply elem_of_cons. right. apply elem_of_cons. by left.
        - apply elem_of_cons. right. apply elem_of_cons. right. eauto. }
      destruct Hend as [(tried & s' & untried & fails & fd & -> & -> & Hlen & Hf & Hfd & Hres)
                       |(Hlen & Hf & d & Hd & Hres)].
      * left. exists (s :: tried), s', untried, (Throw e :: fails), fd.
        split_and!; try done.
        -- simpl. by rewrite Hlen.
        -- by constructor.
      * right. split_and!.
        -- simpl. by rewrite Hlen.
        -- by constructor.
        -- eauto.
Qed.

(** *** The single-picture handler *)

Lemma answer_run d used t w :
  ∃ line,
    answer d used t w =
    {| result := Normal (Build_Response 200 (answered d used t));
       after := w; events := [Log line] |}.
Proof.
  unfold answer, answered.
  destruct (described d) as [[fd v]|]; eexists; reflexivity.
Qed.

(** The four ways a request to [/extract_embedding] goes. *)
Lemma extract_embedding_run srv req w :
  let o := extract_embedding srv req w in
  let image := property req "image" in
  (modelsLoaded srv = false
   ∧ o = {| result := Normal (Build_Response 503
                        (Extract.NotReady "Models not loaded yet"
                           (loadingProgress srv)));
            after := w; events := [] |})
  ∨ (modelsLoaded srv = true ∧ truthy image = false
     ∧ events o = []
     ∧ result o = Normal (Build_Response 400
                    (Extract.BadRequest "No image provided in request body")))
  ∨ (modelsLoaded srv = true ∧ truthy image = true
     ∧ ∃ e, events o = [Decoded image (Throw e)]
     ∧ result o = Normal (Build_Response 400
                    (Extract.BadRequest
                       "Invalid image format or corrupted base64 data")))
  ∨ (modelsLoaded srv = true ∧ truthy image = true
     ∧ ∃ img w1 d used t line,
         let ol := strategy_loop img detectionStrategies None w1 in
         result ol = Normal (d, used)
         ∧ events o = Decoded image (Normal img) :: events ol ++ [Log line]
         ∧ result o = Normal (Build_Response 200 (answered d used t))).
Proof.
  intros o image. subst o. unfold extract_embedding.
  remember detectionStrategies as strategies eqn:Hs.
  destruct (modelsLoaded srv); simpl; [|left; done].
  right. fold image.
  unfold mbind, M_bind, bind, try_catch, Date_now, loadImage, mret, M_ret, ret.
  destruct (now w) as [t0 w1] eqn:Hnow. simpl.
  destruct (truthy image) eqn:Him; simpl; [|left; done].
  right.
  destruct (decode image w1) as [[img|e] w2] eqn:Hdec; simpl.
  - right. split_and!; try done.
    assert (∃ d used, result (strategy_loop img strategies None w2)
                      = Normal (d, used)) as (d & used & Hres).
    { destruct (strategy_loop_run strategies img None w2 eq_refl)
        as (rs & _ & _ & _ & [(? & s & ? & ? & fd & _ & _ & _ & _ & _ & Hres)
                             |(_ & _ & d & _ & Hres)]); eauto. }
    destruct (strategy_loop img strategies None w2) as [res wl evl] eqn:Hloop.
    simpl in *. subst res. simpl.
    destruct (now wl) as [t1 w3]. simpl.
    destruct (answer_run d used (t1 - t0) w3) as [line ->]. simpl.
    exists img, w2, d, used, (t1 - t0), line. subst strategies.
    cbv zeta. rewrite Hloop. done.
  - left. split_and!; try done. by exists e.
Qed.

(** *** One turn of the batch loop *)

Lemma batch_item_run i p w :
  batch_item i p w =
  let '(t0, w1) := now w in
  let '(rd, w2) := decode p w1 in
  match rd with
  | Throw e =>
      let '(t1, w3) := now w2 in
      {| result := Normal (Batch.ItemFailed i (t1 - t0) (message e));
         after := w3; events := [Decoded p rd] |}
  | Normal img =>
      let '(ri, w3) := infer img batchOptions w2 in
      let '(t1, w4) := now w3 in
      {| result :=
           Normal
             match ri with
             | Throw e => Batch.ItemFailed i (t1 - t0) (message e)
             | Normal d =>
                 match described d with
                 | Some (fd, v) =>
                     Batch.ItemFound i v (t1 - t0)
                       (or_number (score (faceapi.detection fd)) zero)
                 | None => Batch.ItemFailed i (t1 - t0) "No face detected"
                 end
             end;
         after := w4;
         events := [Decoded p rd; Detected batchOptions ri] |}
  end.
Proof.
  unfold batch_item, batch_try, try_catch, mbind, M_bind, bind, Date_now,
    loadImage, detectSingleFace, mret, M_ret, ret.
  simpl.
  destruct (now w) as [t0 w1]; simpl.
  destruct (decode p w1) as [[img|e] w2]; simpl.
  - destruct (infer img batchOptions w2) as [[d|e] w3]; simpl.
    + destruct (now w3) as [t1 w4]; simpl.
      by destruct (described d) as [[fd v]|].
    + by destruct (now w3) as [t1 w4].
  - by destruct (now w2) as [t1 w3].
Qed.

Lemma progress_line_run i n w :
  ∃ evs, progress_line i n w = {| result := Normal tt; after := w; events := evs |}
         ∧ attempts evs = [] ∧ decodings evs = [].
Proof.
  unfold progress_line. case_bool_decide; eexists; split; reflexivity || done.
Qed.

(** The loop never throws; it pushes one record per element, each
    produced by [batch_item] at the index of the element, and its trace
    is made of the traces of the turns. *)
Lemma batch_loop_run n todo : ∀ i results w,
  let o := batch_loop n todo i results w in
  ∃ new segs,
    result o = Normal (results ++ new)
    ∧ length new = length todo
    ∧ length segs = length todo
    ∧ (∀ (k : nat) p, todo !! k = Some p →
         ∃ r evs, new !! k = Some r ∧ segs !! k = Some evs
                  ∧ pushes (i + Z.of_nat k) p r evs)
    ∧ attempts (events o) = concat (attempts <$> segs)
    ∧ decodings (events o) = concat (decodings <$> segs).
Proof.
  induction todo as [|p todo IH]; intros i results w; simpl.
  - exists [], []. rewrite app_nil_r. split_and!; try done.
  - rewrite run_bind.
    assert (∃ r, result (batch_item i p w) = Normal r) as [r Hr].
    { rewrite batch_item_run. destruct (now w) as [t0 w1].
      destruct (decode p w1) as [[img|e] w2].
      - destruct (infer img batchOptions w2) as [ri w3].
        destruct (now w3) as [t1 w4]. eauto.
      - destruct (now w2) as [t1 w3]. eauto. }
    rewrite Hr. simpl. rewrite run_bind.
    destruct (progress_line_run i n (after (batch_item i p w)))
      as (pevs & -> & Hpa & Hpd). simpl.
    destruct (IH (i + 1) (results ++ [r]) (after (batch_item i p w)))
      as (new & segs & Hres & Hlen & Hsegs & Hitems & Hat & Hdec).
    exists (r :: new), (events (batch_item i p w) :: segs).
    split_and!.
    + rewrite Hres. by rewrite <- app_assoc.
    + simpl. by rewrite Hlen.
    + simpl. by rewrite Hsegs.
    + intros [|k] q Hq; simplify_eq/=.
      * exists r, (events (batch_item i q w)). split_and!; try done.
        exists w. by rewrite Z.add_0_r.
      * destruct (Hitems k q Hq) as (r' & evs & ? & ? & Hp).
        exists r', evs. split_and!; try done.
        by replace (i + Z.of_nat (S k)) with (i + 1 + Z.of_nat k) by lia.
    + rewrite !attempts_app, Hpa, Hat. done.
    + rewrite !decodings_app, Hpd, Hdec. done.
Qed.

(** *** The batch handler *)

(** The three ways a request to [/batch_extract] goes. *)
Lemma batch_extract_run srv req w :
  let o := batch_extract srv req w in
  let images := property req "images" in
  (modelsLoaded srv = false
   ∧ o = {| result := Normal (Build_Response 503
                        (Batch.NotReady "Models not loaded yet"
                           (loadingProgress srv)));
            after := w; events := [] |})
  ∨ (modelsLoaded srv = true
     ∧ (truthy images = false ∨ Array_isArray images = false)
     ∧ events o = []
     ∧ result o = Normal (Build_Response 400
                    (Batch.BadRequest "Images array is required")))
  ∨ (modelsLoaded srv = true
     ∧ ∃ elems results segs t,
         images = VArray elems
         ∧ length results = length elems
         ∧ length segs = length elems
         ∧ (∀ (k : nat) p, elems !! k = Some p →
              ∃ r evs, results !! k = Some r ∧ segs !! k = Some evs
                       ∧ pushes (Z.of_nat k) p r evs)
         ∧ attempts (events o) = concat (attempts <$> segs)
         ∧ decodings (events o) = concat (decodings <$> segs)
         ∧ result o = Normal (Build_Response 200
                        (Batch.Done results
                           (summarised (Z.of_nat (length elems)) results t)))).
Proof.
  intros o images. subst o. unfold batch_extract.
  destruct (modelsLoaded srv); simpl; [|left; done].
  right. fold images.
  destruct (truthy images) eqn:Htr; simpl.
  2:{ left. split_and!; eauto. }
  destruct (Array_isArray images) eqn:Harr; simpl.
  2:{ left. split_and!; eauto. }
  right. split; [done|].
  destruct images as [| | | | |elems|] eqn:Him; try done. simpl.
  unfold try_catch, mbind, M_bind, bind, Date_now, console_log, emit,
    mret, M_ret, ret. simpl.
  destruct (now w) as [t0 w1]. simpl.
  destruct (batch_loop_run (Z.of_nat (length elems)) elems 0 [] w1)
    as (results & segs & Hres & Hlen & Hsegs & Hitems & Hat & Hdec).
  destruct (batch_loop (Z.of_nat (length elems)) elems 0 [] w1)
    as [res wl evl].
  simpl in *. subst res. simpl.
  destruct (now wl) as [t1 w2]. simpl.
  exists elems, results, segs, (t1 - t0). split_and!; try done.
  - by rewrite attempts_app, app_nil_r.
  - by rewrite decodings_app, app_nil_r.
Qed.

End Stepping.

(** ** The fallback loop and the single-picture handler *)

Section Single.

Context {R : Runtime}.

Lemma usable_present r : usable r = true ↔ present r.
Proof.
  destruct r as [[fd|]|e]; simpl.
  - rewrite bool_decide_eq_true. split.
    + intros [v Hv]. by exists fd, v.
    + intros (fd' & v & ? & Hv); simplify_eq. eauto.
  - split; [done | intros (? & ? & ? & _); done].
  - split; [done | intros (? & ? & ? & _); done].
Qed.

Lemma unusable_not_present r : usable r = false ↔ ¬ present r.
Proof. rewrite <- usable_present. by destruct (usable r). Qed.

Lemma zip_snoc {A B} (l1 l2 : list A) (k : list B) a b :
  length k = length l1 →
  zip (l1 ++ a :: l2) (k ++ [b]) = zip l1 k ++ [(a, b)].
Proof.
  revert k. induction l1 as [|a' l1 IH]; intros [|b' k] Hlen; simplify_eq/=.
  - by destruct l2.
  - by rewrite IH.
Qed.

(** The two ways the loop ends, on the trace. *)
Lemma strategy_loop_cases strategies img w :
  let o := strategy_loop img strategies None w in
  (∃ tried s untried fails fd,
      strategies = tried ++ s :: untried
      ∧ attempts (events o)
        = zip (options <$> tried) fails ++ [(options s, Normal (Some fd))]
      ∧ length fails = length tried
      ∧ Forall (fun r => usable r = false) fails
      ∧ is_Some (descriptor fd)
      ∧ result o = Normal (Some fd, Some (name s)))
  ∨ (∃ fails d,
      attempts (events o) = zip (options <$> strategies) fails
      ∧ length fails = length strategies
      ∧ Forall (fun r => usable r = false) fails
      ∧ has_descriptor d = false
      ∧ result o = Normal (d, None)).
Proof.
  intros o.
  destruct (strategy_loop_run strategies img None w eq_refl)
    as (rs & Hat & _ & _ & [(tried & s & untried & fails & fd & -> & -> & Hlen & Hf & Hfd & Hres)
                           |(Hlen & Hf & d & Hd & Hres)]).
  - left. exists tried, s, untried, fails, fd. split_and!; try done.
    fold o in Hat. rewrite Hat, fmap_app, fmap_cons.
    apply zip_snoc. by rewrite length_fmap.
  - right. exists rs, d. split_and!; done.
Qed.

(** The test of the loop is on the presence of the descriptor: whatever
    the detector returns, the loop stops at the first attempt whose
    detection has a descriptor. *)
Lemma stops_at_first_present img strategies w :
  stops_at_first present strategies (strategy_loop img strategies None w).
Proof.
  destruct (strategy_loop_cases strategies img w)
    as [(tried & s & untried & fails & fd & Hs & Hat & Hlen & Hf & Hfd & Hres)
       |(fails & d & Hat & Hlen & Hf & Hd & Hres)].
  - left. exists tried, s, untried, fails, (Some fd). split_and!; try done.
    + eapply Forall_impl; [done|]. intros r. by rewrite unusable_not_present.
    + destruct Hfd as [v Hv]. by exists fd, v.
  - right. exists fails, d. split_and!; try done.
    eapply Forall_impl; [done|]. intros r. by rewrite unusable_not_present.
Qed.

(** C2.  For every picture and every list of strategies, with a
    detector that never returns an empty descriptor, the loop attempts
    the strategies in the order of the list and stops at the first
    attempt that returns a detection whose descriptor is present and
    not empty; no strategy is attempted after it, and the name of that
    strategy is the strategy recorded.  When no attempt returns such a
    detection, every strategy is attempted and no strategy is
    recorded. *)
Theorem strategy_loop_stops_at_first_valid img strategies w :
  Genuine →
  stops_at_first valid strategies (strategy_loop img strategies None w).
Proof.
  intros Hgen.
  pose proof (genuine_attempts _ Hgen
                (strategy_loop_from_detector strategies img None w)) as Hall.
  destruct (stops_at_first_present img strategies w)
    as [(tried & s & untried & fails & d & Hs & Hat & Hlen & Hf & Hgood & Hres)
       |(fails & d & Hat & Hlen & Hf & Hres)].
  - left. exists tried, s, untried, fails, d. split_and!; try done.
    + eapply Forall_impl; [done|]. intros r Hr Hv. by apply Hr, valid_present.
    + rewrite Hat in Hall. apply Forall_app in Hall as [_ Hlast].
      apply Forall_inv in Hlast. by apply Hlast.
  - right. exists fails, d. split_and!; try done.
    eapply Forall_impl; [done|]. intros r Hr Hv. by apply Hr, valid_present.
Qed.

(** C8.  While the models are not loaded, both handlers answer 503 with
    the loading progress, and do nothing else: the world is left as it
    was and nothing is decoded, detected or written. *)
Theorem not_ready_rejected srv req w :
  modelsLoaded srv = false →
  extract_embedding srv req w
  = {| result := Normal (Build_Response 503
                   (Extract.NotReady "Models not loaded yet"
                      (loadingProgress srv)));
       after := w; events := [] |}
  ∧ batch_extract srv req w
    = {| result := Normal (Build_Response 503
                     (Batch.NotReady "Models not loaded yet"
                        (loadingProgress srv)));
         after := w; events := [] |}.
Proof.
  intros Hnot. unfold extract_embedding, batch_extract. by rewrite Hnot.
Qed.

Lemma not_described d : has_descriptor d = false → described d = None.
Proof.
  intros Hd. destruct (described d) as [x|] eqn:Hx; [|done].
  assert (has_descriptor d = true) by (apply has_descriptor_described; eauto).
  congruence.
Qed.

(** What a throwing attempt leaves behind in the loop. *)
Lemma strategy_loop_skips strategies img w k o_k e :
  let o := strategy_loop img strategies None w in
  attempts (events o) !! k = Some (o_k, Throw e) →
  ∃ s d used,
    strategies !! k = Some s ∧ o_k = options s
    ∧ Warn (warning_line s e) ∈ events o
    ∧ (∀ s', strategies !! S k = Some s' →
         ∃ r, attempts (events o) !! S k = Some (options s', r))
    ∧ result o = Normal (d, used)
    ∧ (∀ j o_j fd, attempts (events o) !! j = Some (o_j, Normal (Some fd)) →
         is_Some (descriptor fd) →
         d = Some fd ∧ ∃ s', strategies !! j = Some s' ∧ used = Some (name s')).
Proof.
  intros o Hk.
  destruct (strategy_loop_run strategies img None w eq_refl)
    as (rs & Hat & _ & Hwarn & Hend).
  fold o in Hat, Hwarn, Hend. rewrite Hat in Hk |- *.
  apply lookup_zip_with_Some in Hk as (ok & rk & ? & Hok & Hrk); simplify_eq.
  rewrite list_lookup_fmap in Hok.
  destruct (strategies !! k) as [s|] eqn:Hs; simplify_eq/=.
  assert (∀ j, (j < length rs)%nat → ∀ s', strategies !! j = Some s' →
               ∃ r, zip (options <$> strategies) rs !! j = Some (options s', r))
    as Hzip.
  { intros j Hj s' Hs'. destruct (lookup_lt_is_Some_2 rs j Hj) as [r Hr].
    exists r. apply lookup_zip_with_Some. exists (options s'), r.
    split_and!; try done. by rewrite list_lookup_fmap, Hs'. }
  destruct Hend as [(tried & s0 & untried & fails & fd & -> & -> & Hlen & Hf & Hfd & Hres)
                   |(Hlen & Hf & d & Hd & Hres)].
  - assert (k < length fails)%nat as Hlt.
    { destruct (decide (k < length fails)%nat) as [|Hge]; [done|].
      apply lookup_lt_Some in Hrk as Hb. rewrite length_app in Hb. simpl in Hb.
      replace k with (length fails + 0)%nat in Hrk by lia.
      rewrite lookup_app_r in Hrk by lia.
      replace (length fails + 0 - length fails)%nat with 0%nat in Hrk by lia.
      done. }
    exists s, (Some fd), (Some (name s0)). split_and!; eauto.
    + intros s' Hs'. apply Hzip; [|done]. rewrite length_app. simpl. lia.
    + intros j o_j fd' Hj Hfd'.
      apply lookup_zip_with_Some in Hj as (oj & rj & ? & Hoj & Hrj); simplify_eq.
      destruct (decide (j < length fails)%nat) as [Hjl|Hjl].
      * rewrite lookup_app_l in Hrj by done.
        eapply Forall_lookup in Hf; [|done]. simpl in Hf.
        apply bool_decide_eq_false in Hf. done.
      * apply lookup_lt_Some in Hrj as Hb. rewrite length_app in Hb. simpl in Hb.
        assert (j = length fails) as -> by lia.
        rewrite lookup_app_r in Hrj by lia.
        replace (length fails - length fails)%nat with 0%nat in Hrj by lia.
        simplify_eq/=. split; [done|]. exists s0. split; [|done].
        rewrite Hlen. by rewrite list_lookup_middle.
  - exists s, d, None. split_and!; eauto.
    + intros s' Hs'. apply Hzip; [|done]. rewrite Hlen.
      by apply lookup_lt_Some in Hs'.
    + intros j o_j fd' Hj Hfd'.
      apply lookup_zip_with_Some in Hj as (oj & rj & ? & Hoj & Hrj); simplify_eq.
      eapply Forall_lookup in Hf; [|done]. simpl in Hf.
      apply bool_decide_eq_false in Hf. done.
Qed.

(** A request that reaches no detector call, or the loop it runs. *)
Lemma extract_embedding_attempts srv req w :
  let o := extract_embedding srv req w in
  (attempts (events o) = []
   ∧ ∃ resp, result o = Normal resp ∧ status resp ≠ 200)
  ∨ ∃ img w1 d used t,
      let ol := strategy_loop img detectionStrategies None w1 in
      attempts (events o) = attempts (events ol)
      ∧ (∀ line, Warn line ∈ events ol → Warn line ∈ events o)
      ∧ result ol = Normal (d, used)
      ∧ result o = Normal (Build_Response 200 (answered d used t)).
Proof.
  intros o. subst o.
  destruct (extract_embedding_run srv req w)
    as [[_ Ho]|[(_ & _ & Hev & Ho)|[(_ & _ & e & Hev & Ho)
       |(_ & _ & img & w1 & d & used & t & line & Hres & Hev & Ho)]]].
  - left. rewrite Ho. split; [done|]. by eexists.
  - left. rewrite Hev, Ho. split; [done|]. by eexists.
  - left. rewrite Hev, Ho. split; [done|]. by eexists.
  - right. exists img, w1, d, used, t. cbv zeta. rewrite Hev.
    split_and!; try done.
    + change (Decoded ?p ?r :: ?l) with ([Decoded p r] ++ l).
      rewrite !attempts_app. simpl. by rewrite app_nil_r.
    + intros l Hl. apply elem_of_cons. right. apply elem_of_app. by left.
Qed.

(** When every configured strategy has been attempted and no attempt
    returned a detection whose descriptor is present, the answer is the
    one for no face. *)
Lemma exhausted_without_present srv req w :
  let o := extract_embedding srv req w in
  exhausted_without present (events o) →
  ∃ resp,
    result o = Normal resp
    ∧ no_face resp
    ∧ name <$> detectionStrategies
      = ["TinyFaceDetector_High"; "TinyFaceDetector_Medium";
         "TinyFaceDetector_Low"; "SsdMobilenetv1"].
Proof.
  intros o [Hopts Hnone].
  destruct (extract_embedding_attempts srv req w)
    as [[Hat _]|(img & w1 & d & used & t & Hat & _ & Hres & Ho)];
    fold o in Hat; rewrite Hat in Hopts, Hnone.
  { discriminate Hopts. }
  fold o in Ho. exists (Build_Response 200 (answered d used t)).
  split; [done|]. split; [|done].
  destruct (strategy_loop_cases detectionStrategies img w1)
    as [(tried & s & untried & fails & fd & _ & Hl & _ & _ & Hfd & _)
       |(fails & d' & _ & _ & _ & Hd & Hres')].
  - rewrite Hl, fmap_app in Hnone. apply Forall_app in Hnone as [_ Hlast].
    apply Forall_inv in Hlast. destruct Hlast.
    destruct Hfd as [v Hv]. by exists fd, v.
  - rewrite Hres in Hres'. simplify_eq.
    unfold no_face, answered. rewrite (not_described _ Hd). simpl.
    split_and!; eauto.
Qed.

Lemma extract_embedding_from_detector srv req w :
  from_detector (events (extract_embedding srv req w)).
Proof.
  unfold from_detector.
  destruct (extract_embedding_attempts srv req w)
    as [[-> _]|(img & w1 & d & used & t & -> & _)].
  - constructor.
  - apply strategy_loop_from_detector.
Qed.

(** C3.  With a detector that never returns an empty descriptor, when
    every configured strategy has been attempted and no attempt returned
    a valid detection (a descriptor that is present and not empty), the
    single-picture handler answers 200, not an error status, with
    [success: false], the error "No face detected with any strategy"
    and, as [strategiesTried], the names of all the configured
    strategies in order: four names. *)
Theorem exhausted_answers_no_face srv req w :
  Genuine →
  let o := extract_embedding srv req w in
  exhausted_without valid (events o) →
  ∃ resp,
    result o = Normal resp
    ∧ no_face resp
    ∧ name <$> detectionStrategies
      = ["TinyFaceDetector_High"; "TinyFaceDetector_Medium";
         "TinyFaceDetector_Low"; "SsdMobilenetv1"].
Proof.
  intros Hgen o [Hopts Hnone].
  apply exhausted_without_present. split; [done|].
  pose proof (genuine_attempts _ Hgen
                (extract_embedding_from_detector srv req w)) as Hall.
  fold o in Hall.
  apply (Forall_fmap snd (fun r => ¬ present r)).
  apply (Forall_fmap snd (fun r => ¬ valid r)) in Hnone.
  eapply Forall_impl; [apply Forall_and; split; [exact Hall|exact Hnone]|].
  intros a [Ha Hn] Hp. simpl in *. by apply Hn, Ha.
Qed.

(** C7.  When an attempt of the single-picture handler throws, the
    handler writes a warning naming the strategy and the error, attempts
    the next strategy if there is one, and still answers 200; if a later
    attempt returns a detection with a descriptor, the answer is the
    success answer with that descriptor and the name of that later
    strategy. *)
Theorem throwing_strategy_is_skipped srv req w k o_k e :
  let o := extract_embedding srv req w in
  attempts (events o) !! k = Some (o_k, Throw e) →
  ∃ s resp,
    detectionStrategies !! k = Some s ∧ o_k = options s
    ∧ Warn (warning_line s e) ∈ events o
    ∧ (∀ s', detectionStrategies !! S k = Some s' →
         ∃ r, attempts (events o) !! S k = Some (options s', r))
    ∧ result o = Normal resp ∧ status resp = 200
    ∧ (∀ j o_j fd v, (k < j)%nat →
         attempts (events o) !! j = Some (o_j, Normal (Some fd)) →
         descriptor fd = Some v →
         ∃ s' t bb c lm,
           detectionStrategies !! j = Some s'
           ∧ Extract.success (body resp) = true
           ∧ body resp = Extract.Found v t (Some (name s')) bb c lm).
Proof.
  intros o Hk.
  destruct (extract_embedding_attempts srv req w)
    as [[Hat _]|(img & w1 & d & used & t & Hat & Hwarn & Hres & Ho)];
    fold o in Hat; rewrite Hat in Hk |- *.
  { done. }
  fold o in Ho, Hwarn.
  destruct (strategy_loop_skips detectionStrategies img w1 k o_k e Hk)
    as (s & d' & used' & Hs & -> & Hw & Hnext & Hres' & Hlater).
  rewrite Hres in Hres'. simplify_eq.
  exists s, (Build_Response 200 (answered d' used' t)).
  split_and!; eauto.
  intros j o_j fd v _ Hj Hv.
  destruct (Hlater j o_j fd Hj) as (-> & s' & Hs' & ->); [eauto|].
  unfold answered, described. simpl. rewrite Hv. simpl.
  exists s'. eauto 10.
Qed.

(** C4.  The strategies of the single-picture handler are four, in
    this order: the fast detector at resolution 416 with threshold 0.3,
    at 320 with 0.4, at 224 with 0.5, and last the SsdMobilenetv1
    detector with threshold 0.3. *)
Theorem default_strategies :
  length detectionStrategies = 4%nat
  ∧ (fun s => (family (options s), resolution (options s), threshold (options s)))
      <$> detectionStrategies
    = [ (TinyFaceDetector, Some 416, of_Q (3 # 10));
        (TinyFaceDetector, Some 320, of_Q (4 # 10));
        (TinyFaceDetector, Some 224, of_Q (5 # 10));
        (SsdMobilenetv1, None, of_Q (3 # 10)) ].
Proof. split; reflexivity. Qed.

End Single.

(** ** The batch handler *)

Section Batches.

Context {R : Runtime}.

(** The four ways a turn of the batch loop goes. *)
Lemma pushes_cases i p r evs :
  pushes i p r evs →
  (∃ e t, evs = [Decoded p (Throw e)]
          ∧ r = Batch.ItemFailed i t (message e))
  ∨ (∃ img e t,
       evs = [Decoded p (Normal img); Detected batchOptions (Throw e)]
       ∧ r = Batch.ItemFailed i t (message e))
  ∨ (∃ img d t,
       evs = [Decoded p (Normal img); Detected batchOptions (Normal d)]
       ∧ described d = None
       ∧ r = Batch.ItemFailed i t "No face detected")
  ∨ (∃ img fd v t,
       evs = [Decoded p (Normal img); Detected batchOptions (Normal (Some fd))]
       ∧ descriptor fd = Some v
       ∧ r = Batch.ItemFound i v t
               (or_number (score (faceapi.detection fd)) zero)).
Proof.
  intros (w & Hr & Hev). rewrite batch_item_run in Hr, Hev.
  destruct (now w) as [t0 w1].
  destruct (decode p w1) as [[img|e] w2].
  - destruct (infer img batchOptions w2) as [[d|e] w3].
    + destruct (now w3) as [t1 w4]. simpl in *.
      destruct (described d) as [[fd v]|] eqn:Hd; simplify_eq.
      * do 3 right. destruct d as [fd'|]; [|done]. simpl in Hd.
        destruct (descriptor fd') as [v'|] eqn:Hv; simplify_eq/=.
        exists img, fd, v, (t1 - t0). done.
      * do 2 right. left. exists img, d, (t1 - t0). done.
    + destruct (now w3) as [t1 w4]. simpl in *. simplify_eq.
      right. left. exists img, e, (t1 - t0). done.
  - destruct (now w2) as [t1 w3]. simpl in *. simplify_eq.
    left. exists e, (t1 - t0). done.
Qed.

Lemma pushes_index i p r evs : pushes i p r evs → Batch.index r = i.
Proof.
  intros H. apply pushes_cases in H
    as [(?&?&_&->)|[(?&?&?&_&->)|[(?&?&?&_&_&->)|(?&?&?&?&_&_&->)]]]; done.
Qed.

Lemma described_present d : described d = None → ¬ present (Normal d).
Proof.
  intros Hd (fd & v & ? & Hv). simplify_eq. simpl in Hd. by rewrite Hv in Hd.
Qed.


(** A batch request that passes the gate and carries an array. *)
Lemma batch_extract_done srv req elems w :
  modelsLoaded srv = true →
  property req "images" = VArray elems →
  let o := batch_extract srv req w in
  ∃ results segs t,
    length results = length elems
    ∧ length segs = length elems
    ∧ (∀ (k : nat) p, elems !! k = Some p →
         ∃ r evs, results !! k = Some r ∧ segs !! k = Some evs
                  ∧ pushes (Z.of_nat k) p r evs)
    ∧ attempts (events o) = concat (attempts <$> segs)
    ∧ result o = Normal (Build_Response 200
                   (Batch.Done results
                      (summarised (Z.of_nat (length elems)) results t))).
Proof.
  intros Hready Himages o.
  destruct (batch_extract_run srv req w)
    as [[Hnot _]|[(_ & Hbad & _)
       |(_ & elems' & results & segs & t & Him & Hlen & Hsegs & Hitems & Hat & _ & Ho)]].
  - congruence.
  - rewrite Himages in Hbad. by destruct Hbad.
  - rewrite Himages in Him. simplify_eq.
    exists results, segs, t. split_and!; done.
Qed.

(** C5.  For every array of pictures, the batch handler answers with
    as many records as pictures, the record at position [i] carries
    index [i] (so the indices are 0, 1, ..., each once and in order),
    and in the summary [total] is the number of pictures and
    [successful + failed = total]. *)
Theorem batch_results_and_summary srv req elems w :
  modelsLoaded srv = true →
  property req "images" = VArray elems →
  ∃ results summary,
    result (batch_extract srv req w)
    = Normal (Build_Response 200 (Batch.Done results summary))
    ∧ length results = length elems
    ∧ (∀ (i : nat) r, results !! i = Some r → Batch.index r = Z.of_nat i)
    ∧ Batch.index <$> results = Z.of_nat <$> seq 0 (length elems)
    ∧ Batch.total summary = Z.of_nat (length elems)
    ∧ Batch.successful summary + Batch.failed summary = Batch.total summary.
Proof.
  intros Hready Himages.
  destruct (batch_extract_done srv req elems w Hready Himages)
    as (results & segs & t & Hlen & _ & Hitems & _ & Ho).
  assert (∀ (i : nat) r, results !! i = Some r → Batch.index r = Z.of_nat i)
    as Hindex.
  { intros i r Hr.
    destruct (lookup_lt_is_Some_2 elems i) as [p Hp].
    { rewrite <- Hlen. by eapply lookup_lt_Some. }
    destruct (Hitems i p Hp) as (r' & evs & Hr' & _ & Hpush).
    rewrite Hr in Hr'. simplify_eq. by eapply pushes_index. }
  exists results, (summarised (Z.of_nat (length elems)) results t).
  split_and!; try done.
  - apply list_eq. intros i. rewrite !list_lookup_fmap.
    destruct (results !! i) as [r|] eqn:Hr; simpl.
    + rewrite (Hindex i r Hr). apply lookup_lt_Some in Hr.
      rewrite lookup_seq_lt by lia. done.
    + apply lookup_ge_None in Hr. rewrite lookup_seq_ge by lia. done.
  - simpl. lia.
Qed.




(** A turn of the batch loop, by its calls. *)
Lemma pushes_one_configuration i p r evs :
  pushes i p r evs → one_configuration i p r evs.
Proof.
  intros H. apply pushes_cases in H
    as [(e&t&->&->)|[(img&e&t&->&->)|[(img&d&t&->&Hd&->)|(img&fd&v&t&->&Hv&->)]]].
  - left. by exists e, t.
  - right. exists img, (Throw e). split_and!; try done.
    intros e' [= <-]. by exists t.
  - right. exists img, (Normal d). split_and!; try done.
    + simpl. destruct (has_descriptor d) eqn:Hh; [|done].
      apply has_descriptor_described in Hh as [? ?]. congruence.
    + intros fd v [= ->] Hv. simpl in Hd. by rewrite Hv in Hd.
    + intros _ _ _. by exists t.
  - right. exists img, (Normal (Some fd)). split_and!; try done.
    + simpl. symmetry. apply bool_decide_eq_true. eauto.
    + intros fd' v' [= <-] Hv'. rewrite Hv in Hv'. injection Hv' as <-.
      by do 2 eexists.
    + simpl. intros d _ Hu. apply bool_decide_eq_false in Hu.
      destruct Hu. eauto.
Qed.

(** C10.  Every picture of a batch is processed with one fixed
    configuration, the fast detector at resolution 416 with threshold
    0.3: its turn decodes the picture and, when it decoded, calls the
    detector exactly once, with that configuration; no other strategy
    is tried for it, whatever the detector would return for another
    one.  The record of the picture is a success exactly when that one
    call returned a detection with a descriptor; a picture that fails
    under that configuration is recorded as failed.  The detector calls
    of the batch are those of the turns, in order. *)
Theorem batch_uses_one_configuration srv req elems w :
  modelsLoaded srv = true →
  property req "images" = VArray elems →
  let o := batch_extract srv req w in
  ∃ results summary segs,
    result o = Normal (Build_Response 200 (Batch.Done results summary))
    ∧ length results = length elems
    ∧ length segs = length elems
    ∧ attempts (events o) = concat (attempts <$> segs)
    ∧ decodings (events o) = concat (decodings <$> segs)
    ∧ Forall (fun a => a.1 = TinyFaceDetectorOptions 416 (of_Q (3 # 10)))
        (attempts (events o))
    ∧ ∀ (k : nat) p, elems !! k = Some p →
        ∃ r evs, results !! k = Some r ∧ segs !! k = Some evs
                 ∧ one_configuration (Z.of_nat k) p r evs.
Proof.
  intros Hready Himages o. subst o.
  destruct (batch_extract_run srv req w)
    as [[Hnot _]|[(_ & Hbad & _)
       |(_ & elems' & results & segs & t & Him & Hlen & Hsegs & Hitems & Hat & Hdec & Ho)]].
  { congruence. }
  { rewrite Himages in Hbad. by destruct Hbad. }
  rewrite Himages in Him. simplify_eq.
  assert (∀ (k : nat) p, elems' !! k = Some p →
            ∃ r evs, results !! k = Some r ∧ segs !! k = Some evs
                     ∧ one_configuration (Z.of_nat k) p r evs) as Hturns.
  { intros k p Hp. destruct (Hitems k p Hp) as (r & evs & Hr & Hevs & Hpush).
    exists r, evs. split_and!; try done. by apply pushes_one_configuration. }
  exists results, (summarised (Z.of_nat (length elems')) results t), segs.
  split_and!; try done.
  rewrite Hat. apply Forall_concat, Forall_fmap, Forall_lookup.
  intros k evs Hevs. simpl.
  destruct (lookup_lt_is_Some_2 elems' k) as [p Hp].
  { rewrite <- Hsegs. by eapply lookup_lt_Some. }
  destruct (Hturns k p Hp) as (r & evs' & _ & Hevs' & Hone).
  rewrite Hevs in Hevs'. simplify_eq.
  destruct Hone as [(e & t' & _ & -> & _)|(img & a & _ & -> & _)].
  - constructor.
  - by repeat constructor.
Qed.

(** Dividing by a length of 0 gives no finite number. *)
Lemma average_of_nothing t :
  let avg := Math_round (div (of_Z t) (of_Z 0)) in
  (avg = NaN ∨ ∃ s, avg = Infinity s).
Proof.
  cbv zeta. unfold div, of_Z.
  destruct (Qeq_bool (Q2Qc (inject_Z 0)) 0) eqn:H0; [|discriminate H0].
  destruct (Qeq_bool (Q2Qc (inject_Z t)) 0); simpl; eauto.
Qed.

(** C1, what the code does.  For an empty array the batch handler
    answers 200 with no record and a summary where [total], [successful]
    and [failed] are 0; [averageTime], the rounded quotient of the
    elapsed time by 0, is NaN or an infinity, not 0, and is written as
    [null] in the JSON answer. *)
Theorem empty_batch_average_is_not_zero srv req w :
  modelsLoaded srv = true →
  property req "images" = VArray [] →
  ∃ t avg,
    result (batch_extract srv req w)
    = Normal (Build_Response 200
        (Batch.Done []
           {| Batch.total := 0; Batch.successful := 0; Batch.failed := 0;
              Batch.totalTime := t; Batch.averageTime := avg |}))
    ∧ avg ≠ zero
    ∧ (avg = NaN ∨ ∃ s, avg = Infinity s)
    ∧ JSON_number avg = VNull.
Proof.
  intros Hready Himages.
  destruct (batch_extract_done srv req [] w Hready Himages)
    as (results & segs & t & Hlen & _ & _ & _ & Ho).
  destruct results; [|done].
  exists t, (Math_round (div (of_Z t) (of_Z 0))).
  split; [done|].
  pose proof (average_of_nothing t) as Havg. cbv zeta in Havg.
  destruct Havg as [->|[s ->]]; split_and!; eauto; done.
Qed.

End Batches.

(** ** The confidence that is reported *)

Section Confidence.

Context {R : Runtime}.

Lemma or_number_reports fd :
  reports (or_number (score (faceapi.detection fd)) zero) fd.
Proof.
  split.
  - by intros ->.
  - intros s -> Hs. simpl. destruct s as [|neg|q]; simpl; try done.
    destruct (Qeq_bool q 0) eqn:Hq; simpl; [|done].
    unfold zero, of_Z. f_equal. apply Qc_is_canon.
    apply Qeq_bool_eq in Hq. rewrite Hq. simpl. apply Qred_correct.
Qed.

(** C9.  In every success answer of the single-picture handler and in
    every success record of the batch handler, the confidence is the
    score of the detection the embedding comes from when that score is
    a number (it is not NaN), and 0.0 when the detection has no score. *)
Theorem confidence_is_score_or_zero srv req w :
  (∀ v t used bb c lm,
     result (extract_embedding srv req w)
     = Normal (Build_Response 200 (Extract.Found v t used bb c lm)) →
     ∃ o fd,
       last (attempts (events (extract_embedding srv req w)))
       = Some (o, Normal (Some fd))
       ∧ descriptor fd = Some v
       ∧ reports c fd)
  ∧ (∀ results summary (k : nat) i v t c,
       result (batch_extract srv req w)
       = Normal (Build_Response 200 (Batch.Done results summary)) →
       results !! k = Some (Batch.ItemFound i v t c) →
       ∃ p evs fd,
         elements (property req "images") !! k = Some p
         ∧ pushes (Z.of_nat k) p (Batch.ItemFound i v t c) evs
         ∧ attempts evs = [(batchOptions, Normal (Some fd))]
         ∧ descriptor fd = Some v
         ∧ reports c fd).
Proof.
  split.
  - intros v t used bb c lm Hfound.
    destruct (extract_embedding_attempts srv req w)
      as [(_ & resp & Ho & Hstatus)
         |(img & w1 & d & used' & t' & Hat & _ & Hres & Ho)].
    { rewrite Ho in Hfound. by simplify_eq. }
    rewrite Ho in Hfound. rewrite Hat.
    destruct (strategy_loop_cases detectionStrategies img w1)
      as [(tried & s & untried & fails & fd & _ & Hl & _ & _ & [v' Hv'] & Hres')
         |(fails & d' & _ & _ & _ & Hd & Hres')];
      rewrite Hres in Hres'; simplify_eq.
    + unfold answered, described in Hfound. simpl in Hfound.
      rewrite Hv' in Hfound. simpl in Hfound. simplify_eq.
      exists (options s), fd. rewrite Hl, last_snoc.
      split_and!; try done. apply or_number_reports.
    + unfold answered in Hfound. rewrite (not_described _ Hd) in Hfound.
      discriminate Hfound.
  - intros results summary k i v t c Hdone Hk.
    destruct (batch_extract_run srv req w)
      as [[_ Ho]|[(_ & _ & _ & Ho)
         |(_ & elems & results' & segs & t' & Him & Hlen & _ & Hitems & _ & _ & Ho)]];
      rewrite Ho in Hdone; try discriminate Hdone.
    simplify_eq. rewrite Him. simpl.
    destruct (lookup_lt_is_Some_2 elems k) as [p Hp].
    { rewrite <- Hlen. by eapply lookup_lt_Some. }
    destruct (Hitems k p Hp) as (r & evs & Hr & _ & Hpush). simplify_eq.
    exists p, evs.
    destruct (pushes_cases _ _ _ _ Hpush)
      as [(?&?&_&?)|[(?&?&?&_&?)|[(?&?&?&_&_&?)|(img&fd&v'&t''&->&Hv&?)]]];
      simplify_eq.
    exists fd. split_and!; try done. apply or_number_reports.
Qed.

End Confidence.

(** ** Runs on the demonstration runtime *)

Module Runs.

Import Demo.

(** The detector of the demonstration never returns an empty
    descriptor. *)
Lemma demo_genuine : Genuine (R := runtime).
Proof.
  intros img o w fd Hfd. simpl in Hfd. unfold detector in Hfd.
  repeat case_match; simplify_eq; simpl; discriminate.
Qed.

Lemma strategy_loop_stops_at_first_valid_witness :
  Genuine (R := runtime)
  ∧ stops_at_first valid detectionStrategies
      (strategy_loop (R := runtime) "smudge" detectionStrategies None 1000).
Proof.
  split; [exact demo_genuine|].
  apply (strategy_loop_stops_at_first_valid (R := runtime) "smudge"
           detectionStrategies 1000).
  exact demo_genuine.
Defined.

(** On "smudge" the first strategy finds nothing and the second one
    does: two attempts, and the second strategy is the one recorded. *)
Example smudge_second_strategy :
  let o := strategy_loop (R := runtime) "smudge" detectionStrategies None 1000 in
  (attempts (events o)).*1
  = [TinyFaceDetectorOptions 416 (of_Q (3 # 10));
     TinyFaceDetectorOptions 320 (of_Q (4 # 10))]
  ∧ ∃ d, result o = Normal (d, Some "TinyFaceDetector_Medium").
Proof. split; [|eexists]; vm_compute; reflexivity. Qed.

Lemma not_valid_none : ¬ valid (Normal None).
Proof. by intros (fd & v & ? & _). Qed.

Lemma exhausted_answers_no_face_witness :
  let o := extract_embedding (R := runtime) ready (single "blank wall") 1000 in
  Genuine (R := runtime)
  ∧ exhausted_without valid (events o)
  ∧ ∃ resp,
      result o = Normal resp
      ∧ no_face resp
      ∧ name <$> detectionStrategies
        = ["TinyFaceDetector_High"; "TinyFaceDetector_Medium";
           "TinyFaceDetector_Low"; "SsdMobilenetv1"].
Proof.
  assert (exhausted_without valid
            (events (extract_embedding (R := runtime) ready
                       (single "blank wall") 1000))) as Hex.
  { split; [vm_compute; reflexivity|].
    replace ((attempts _).*2)
      with [Normal None; Normal None; Normal None; Normal None
            : Completion (option FaceDescription)]
      by (vm_compute; reflexivity).
    repeat constructor; apply not_valid_none. }
  split; [exact demo_genuine|]. split; [exact Hex|].
  apply (exhausted_answers_no_face (R := runtime) ready (single "blank wall")
           1000 demo_genuine Hex).
Defined.

Lemma throwing_strategy_is_skipped_witness :
  let o := extract_embedding (R := runtime) ready (single "flaky") 1000 in
  attempts (events o) !! 0%nat
  = Some (TinyFaceDetectorOptions 416 (of_Q (3 # 10)),
          Throw {| message := "tensor disposed" |})
  ∧ ∃ s resp,
      detectionStrategies !! 0%nat = Some s
      ∧ TinyFaceDetectorOptions 416 (of_Q (3 # 10)) = options s
      ∧ Warn (warning_line s {| message := "tensor disposed" |}) ∈ events o
      ∧ (∀ s', detectionStrategies !! 1%nat = Some s' →
           ∃ r, attempts (events o) !! 1%nat = Some (options s', r))
      ∧ result o = Normal resp ∧ status resp = 200
      ∧ (∀ j o_j fd v, (0 < j)%nat →
           attempts (events o) !! j = Some (o_j, Normal (Some fd)) →
           descriptor fd = Some v →
           ∃ s' t bb c lm,
             detectionStrategies !! j = Some s'
             ∧ Extract.success (body resp) = true
             ∧ body resp = Extract.Found v t (Some (name s')) bb c lm).
Proof.
  assert (attempts (events (extract_embedding (R := runtime) ready
                              (single "flaky") 1000)) !! 0%nat
          = Some (TinyFaceDetectorOptions 416 (of_Q (3 # 10)),
                  Throw {| message := "tensor disposed" |})) as Hk.
  { vm_compute. reflexivity. }
  split; [exact Hk|].
  apply (throwing_strategy_is_skipped (R := runtime) ready (single "flaky")
           1000 0 _ _ Hk).
Defined.

Lemma not_ready_rejected_witness :
  modelsLoaded loading = false
  ∧ extract_embedding (R := runtime) loading (single "frontal") 1000
    = {| result := Normal (Build_Response 503
                     (Extract.NotReady "Models not loaded yet"
                        (loadingProgress loading)));
         after := 1000; events := [] |}
  ∧ batch_extract (R := runtime) loading (single "frontal") 1000
    = {| result := Normal (Build_Response 503
                     (Batch.NotReady "Models not loaded yet"
                        (loadingProgress loading)));
         after := 1000; events := [] |}.
Proof.
  split; [reflexivity|].
  apply (not_ready_rejected (R := runtime) loading (single "frontal") 1000).
  reflexivity.
Defined.


(** The batch of the three pictures: the face is found, the smudge is
    recorded with "No face detected" and the file that does not decode
    with the message of the decoder. *)
Example trio_request :
  ∃ c summary,
    result (batch_extract (R := runtime) ready
              (many ["frontal"; "smudge"; "garbage"]) 1000)
    = Normal (Build_Response 200
        (Batch.Done
           [Batch.ItemFound 0 vector 5 c;
            Batch.ItemFailed 1 5 "No face detected";
            Batch.ItemFailed 2 5 "Unsupported image type"]
           summary)).
Proof. do 2 eexists. vm_compute. reflexivity. Qed.

Lemma batch_results_and_summary_witness :
  modelsLoaded ready = true
  ∧ property (many ["frontal"; "smudge"; "garbage"]) "images" = VArray trio
  ∧ ∃ results summary,
      result (batch_extract (R := runtime) ready
                (many ["frontal"; "smudge"; "garbage"]) 1000)
      = Normal (Build_Response 200 (Batch.Done results summary))
      ∧ length results = length trio
      ∧ (∀ (i : nat) r, results !! i = Some r → Batch.index r = Z.of_nat i)
      ∧ Batch.index <$> results = Z.of_nat <$> seq 0 (length trio)
      ∧ Batch.total summary = Z.of_nat (length trio)
      ∧ Batch.successful summary + Batch.failed summary = Batch.total summary.
Proof.
  split; [reflexivity|]. split; [reflexivity|].
  apply (batch_results_and_summary (R := runtime)); reflexivity.
Defined.

Lemma empty_batch_average_is_not_zero_witness :
  modelsLoaded ready = true
  ∧ property (many []) "images" = VArray []
  ∧ ∃ t avg,
      result (batch_extract (R := runtime) ready (many []) 1000)
      = Normal (Build_Response 200
          (Batch.Done []
             {| Batch.total := 0; Batch.successful := 0; Batch.failed := 0;
                Batch.totalTime := t; Batch.averageTime := avg |}))
      ∧ avg ≠ zero
      ∧ (avg = NaN ∨ ∃ s, avg = Infinity s)
      ∧ JSON_number avg = VNull.
Proof.
  split; [reflexivity|]. split; [reflexivity|].
  apply (empty_batch_average_is_not_zero (R := runtime)); reflexivity.
Defined.

(** The empty batch on the demonstration clock, where 5 ms pass: the
    average is +Infinity. *)
Example empty_batch_run :
  result (batch_extract (R := runtime) ready (many []) 1000)
  = Normal (Build_Response 200
      (Batch.Done []
         {| Batch.total := 0; Batch.successful := 0; Batch.failed := 0;
            Batch.totalTime := 5; Batch.averageTime := Infinity false |})).
Proof. vm_compute. reflexivity. Qed.

(** The quotient 0 / 0, when no time passes, is NaN. *)
Example empty_batch_instant :
  Math_round (div (of_Z 0) (of_Z 0)) = NaN.
Proof. reflexivity. Qed.

(** A detection without a score is reported with confidence 0.0, in
    both handlers. *)
Lemma confidence_is_score_or_zero_witness :
  (∃ o fd,
     last (attempts (events (extract_embedding (R := runtime) ready
                               (single "unscored") 1000)))
     = Some (o, Normal (Some fd))
     ∧ descriptor fd = Some vector
     ∧ reports zero fd)
  ∧ (∃ p evs fd,
       elements (property (many ["frontal"; "unscored"]) "images") !! 1%nat
       = Some p
       ∧ pushes (R := runtime) 1 p (Batch.ItemFound 1 vector 5 zero) evs
       ∧ attempts evs = [(batchOptions, Normal (Some fd))]
       ∧ descriptor fd = Some vector
       ∧ reports zero fd).
Proof.
  split.
  - eapply (proj1 (confidence_is_score_or_zero (R := runtime) ready
                     (single "unscored") 1000)).
    vm_compute. reflexivity.
  - eapply (proj2 (confidence_is_score_or_zero (R := runtime) ready
                     (many ["frontal"; "unscored"]) 1000)
              _ _ 1%nat 1 vector 5 zero).
    + vm_compute. reflexivity.
    + reflexivity.
Defined.

Example scored_confidence :
  ∃ t used bb lm,
    result (extract_embedding (R := runtime) ready (single "frontal") 1000)
    = Normal (Build_Response 200
        (Extract.Found vector t used bb (of_Q (9 # 10)) lm)).
Proof. do 4 eexists. vm_compute. reflexivity. Qed.

Lemma batch_uses_one_configuration_witness :
  let o := batch_extract (R := runtime) ready (many ["profile"; "garbage"]) 1000 in
  modelsLoaded ready = true
  ∧ property (many ["profile"; "garbage"]) "images"
    = VArray [VString "profile"; VString "garbage"]
  ∧ ∃ results summary segs,
      result o = Normal (Build_Response 200 (Batch.Done results summary))
      ∧ length results = 2%nat
      ∧ length segs = 2%nat
      ∧ attempts (events o) = concat (attempts <$> segs)
      ∧ decodings (events o) = concat (decodings <$> segs)
      ∧ Forall (fun a => a.1 = TinyFaceDetectorOptions 416 (of_Q (3 # 10)))
          (attempts (events o))
      ∧ ∀ (k : nat) p, [VString "profile"; VString "garbage"] !! k = Some p →
          ∃ r evs, results !! k = Some r ∧ segs !! k = Some evs
                   ∧ one_configuration (Z.of_nat k) p r evs.
Proof.
  split; [reflexivity|]. split; [reflexivity|].
  apply (batch_uses_one_configuration (R := runtime) ready
           (many ["profile"; "garbage"])
           [VString "profile"; VString "garbage"] 1000); reflexivity.
Defined.

(** The picture "profile" is found by the last strategy of the
    single-picture handler, and recorded as failed by the batch handler,
    which made one detector call for it. *)
Example batch_misses_what_fallback_finds :
  (∃ t bb c lm,
     result (extract_embedding (R := runtime) ready (single "profile") 1000)
     = Normal (Build_Response 200
         (Extract.Found vector t (Some "SsdMobilenetv1") bb c lm)))
  ∧ (∃ summary,
       result (batch_extract (R := runtime) ready (many ["profile"]) 1000)
       = Normal (Build_Response 200
           (Batch.Done [Batch.ItemFailed 0 5 "No face detected"] summary)))
  ∧ attempts (events (batch_extract (R := runtime) ready (many ["profile"]) 1000))
    = [(batchOptions, Normal None)].
Proof.
  split_and!.
  - do 4 eexists. vm_compute. reflexivity.
  - eexists. vm_compute. reflexivity.
  - vm_compute. reflexivity.
Qed.

End Runs.

(** ** More on the two POST handlers *)

Section Edges.

Context {R : Runtime}.

(** X1.  A request to [/extract_embedding] whose body has no [image],
    or a falsy one ([null], [""], [0], [false]), is answered 400 with
    "No image provided in request body"; nothing is decoded, detected or
    written to the console. *)
Theorem extract_without_image srv req w :
  modelsLoaded srv = true →
  truthy (property req "image") = false →
  let o := extract_embedding srv req w in
  result o = Normal (Build_Response 400
               (Extract.BadRequest "No image provided in request body"))
  ∧ events o = [].
Proof.
  intros Hready Himage o. subst o.
  destruct (extract_embedding_run srv req w)
    as [[Hnot _]|[(_ & _ & Hev & Ho)|[(_ & Htr & _)|(_ & Htr & _)]]];
    try congruence.
  done.
Qed.

(** X2.  A request to [/extract_embedding] with an image decodes it
    exactly once.  When the decoder throws, the answer is 400 with
    "Invalid image format or corrupted base64 data" and the detector is
    never called; when it does not, the answer is a 200. *)
Theorem extract_decodes_once srv req w :
  modelsLoaded srv = true →
  truthy (property req "image") = true →
  let o := extract_embedding srv req w in
  ∃ r resp,
    decodings (events o) = [(property req "image", r)]
    ∧ result o = Normal resp
    ∧ match r with
      | Throw _ =>
          resp = Build_Response 400
                   (Extract.BadRequest
                      "Invalid image format or corrupted base64 data")
          ∧ attempts (events o) = []
      | Normal _ => status resp = 200
      end.
Proof.
  intros Hready Himage o. subst o.
  destruct (extract_embedding_run srv req w)
    as [[Hnot _]|[(_ & Htr & _)|[(_ & _ & e & Hev & Ho)
       |(_ & _ & img & w1 & d & used & t & line & Hres & Hev & Ho)]]];
    try congruence.
  - exists (Throw e). eexists. rewrite Hev, Ho. done.
  - exists (Normal img). eexists. rewrite Hev, Ho. split_and!; try done.
    change (Decoded ?p ?r :: ?l) with ([Decoded p r] ++ l).
    rewrite !decodings_app.
    destruct (strategy_loop_run detectionStrategies img None w1 eq_refl)
      as (rs & _ & -> & _).
    done.
Qed.

(** X3.  Whatever the request, the detector calls of
    [/extract_embedding] follow the configured strategies from the
    first on, without a gap or a repeat: their options are a prefix of
    the options of the four strategies, so there are at most four
    calls. *)
Theorem extract_attempts_prefix srv req w :
  let o := extract_embedding srv req w in
  (attempts (events o)).*1 `prefix_of` options <$> detectionStrategies
  ∧ (length (attempts (events o)) ≤ 4)%nat.
Proof.
  intros o. subst o.
  assert ((attempts (events (extract_embedding srv req w))).*1
          `prefix_of` options <$> detectionStrategies) as Hpre.
  { destruct (extract_embedding_attempts srv req w)
      as [[-> _]|(img & w1 & d & used & t & -> & _ & _ & _)].
    { apply prefix_nil. }
    destruct (strategy_loop_cases detectionStrategies img w1)
      as [(tried & s & untried & fails & fd & Hs & -> & Hlen & _)
         |(fails & d' & -> & Hlen & _)].
    - rewrite Hs, fmap_app, fst_zip by (rewrite length_fmap; lia).
      rewrite fmap_app, fmap_cons. simpl.
      apply prefix_app, prefix_cons, prefix_nil.
    - rewrite fst_zip by (rewrite length_fmap; lia). done. }
  split; [done|].
  apply prefix_length in Hpre. by rewrite length_fmap in Hpre.
Qed.

(** X4.  A success answer of [/extract_embedding] always names a
    strategy: [strategy] is never [null], it is the name of one of the
    configured strategies, and the last detector call of the request
    was made with the options of that strategy. *)
Theorem extract_success_names_strategy srv req w v t used bb c lm :
  let o := extract_embedding srv req w in
  result o = Normal (Build_Response 200 (Extract.Found v t used bb c lm)) →
  ∃ s, used = Some (name s)
       ∧ s ∈ detectionStrategies
       ∧ fst <$> last (attempts (events o)) = Some (options s).
Proof.
  intros o Hfound. subst o.
  destruct (extract_embedding_attempts srv req w)
    as [(_ & resp & Ho & Hstatus)
       |(img & w1 & d & used' & t' & -> & _ & Hres & Ho)];
    rewrite Ho in Hfound.
  { by simplify_eq. }
  destruct (strategy_loop_cases detectionStrategies img w1)
    as [(tried & s & untried & fails & fd & Hs & -> & _ & _ & [v' Hv'] & Hres')
       |(fails & d' & _ & _ & _ & Hd & Hres')];
    rewrite Hres in Hres'; simplify_eq.
  - unfold answered, described in Hfound. simpl in Hfound.
    rewrite Hv' in Hfound. simpl in Hfound. simplify_eq.
    exists s. split_and!; try done.
    + rewrite Hs. apply elem_of_app. right. apply elem_of_cons. by left.
    + by rewrite last_snoc.
  - unfold answered in Hfound. rewrite (not_described _ Hd) in Hfound.
    discriminate Hfound.
Qed.

End Edges.

(** ** Rounded quotients *)

Section Rounding.

Lemma this_Q2Qc q : (this (Q2Qc q) == q)%Q.
Proof. simpl. apply Qred_correct. Qed.

Lemma Qcdiv_inject a b :
  (this (Qcdiv (Q2Qc (inject_Z a)) (Q2Qc (inject_Z b)))
   == inject_Z a / inject_Z b)%Q.
Proof. unfold Qcdiv, Qcmult, Qcinv. rewrite !this_Q2Qc. reflexivity. Qed.

Lemma Qfloor_half_up a b :
  0 < b →
  Qfloor (inject_Z a / inject_Z b + (1 # 2)) = (2 * a + b) / (2 * b).
Proof.
  intros Hb. destruct b as [|p|p]; try lia.
  assert (inject_Z a / inject_Z (Z.pos p) + (1 # 2)
          == (2 * a + Z.pos p) # (2 * p))%Q as ->.
  { unfold Qeq, Qdiv, Qmult, Qplus, Qinv, inject_Z. simpl. lia. }
  reflexivity.
Qed.

Lemma nonzero_divisor b : 0 < b → Qeq_bool (Q2Qc (inject_Z b)) 0 = false.
Proof.
  intros Hb. apply not_true_is_false. intros Hq.
  apply Qeq_bool_eq in Hq. rewrite this_Q2Qc in Hq.
  unfold Qeq in Hq. simpl in Hq. lia.
Qed.

(** [Math.round(a / b)] for integers [a] and [b > 0]: the nearest
    integer, halves upwards. *)
Lemma round_div a b :
  0 < b →
  Math_round (div (of_Z a) (of_Z b)) = of_Z ((2 * a + b) / (2 * b)).
Proof.
  intros Hb. unfold div, of_Z. rewrite nonzero_divisor by done.
  unfold Math_round, of_Z. do 3 f_equal.
  rewrite Qcdiv_inject. by apply Qfloor_half_up.
Qed.

End Rounding.

(** ** More on the batch handler *)

Section BatchEdges.

Context {R : Runtime}.

(** X5.  A request to [/batch_extract] whose [images] is missing, falsy
    or not an array (a string, an object) is answered 400 with "Images
    array is required"; nothing is decoded, detected or written. *)
Theorem batch_without_array srv req w :
  modelsLoaded srv = true →
  truthy (property req "images") = false
  ∨ Array_isArray (property req "images") = false →
  let o := batch_extract srv req w in
  result o = Normal (Build_Response 400
               (Batch.BadRequest "Images array is required"))
  ∧ events o = [].
Proof.
  intros Hready Hbad o. subst o.
  destruct (batch_extract_run srv req w)
    as [[Hnot _]|[(_ & _ & Hev & Ho)
       |(_ & elems & results & segs & t & Him & _)]].
  - congruence.
  - done.
  - rewrite Him in Hbad. by destruct Hbad.
Qed.

(** The records of a batch and the traces of its turns, side by side. *)
Lemma batch_turns srv req elems w :
  modelsLoaded srv = true →
  property req "images" = VArray elems →
  let o := batch_extract srv req w in
  ∃ results segs t,
    Forall2 (fun p evs => ∃ i r, pushes i p r evs) elems segs
    ∧ Forall2 (fun r evs => ∃ i p, pushes i p r evs) results segs
    ∧ attempts (events o) = concat (attempts <$> segs)
    ∧ decodings (events o) = concat (decodings <$> segs)
    ∧ result o = Normal (Build_Response 200
                   (Batch.Done results
                      (summarised (Z.of_nat (length elems)) results t))).
Proof.
  intros Hready Himages o. subst o.
  destruct (batch_extract_run srv req w)
    as [[Hnot _]|[(_ & Hbad & _)
       |(_ & elems' & results & segs & t & Him & Hlen & Hsegs & Hitems & Hat & Hdec & Ho)]].
  - congruence.
  - rewrite Himages in Hbad. by destruct Hbad.
  - rewrite Himages in Him. simplify_eq.
    exists results, segs, t. split_and!; try done.
    + apply Forall2_same_length_lookup_2; [congruence|].
      intros k p evs Hp Hevs.
      destruct (Hitems k p Hp) as (r & evs' & _ & ? & ?). simplify_eq. eauto.
    + apply Forall2_same_length_lookup_2; [congruence|].
      intros k r evs Hr Hevs.
      destruct (lookup_lt_is_Some_2 elems' k) as [p Hp].
      { rewrite <- Hlen. by eapply lookup_lt_Some. }
      destruct (Hitems k p Hp) as (r' & evs' & ? & ? & ?). simplify_eq. eauto.
Qed.

(** X6.  The batch handler decodes every element of [images] exactly
    once, in the order of the array, and calls the detector once for
    each element that decoded and never for one that did not. *)
Theorem batch_decodes_each_once srv req elems w :
  modelsLoaded srv = true →
  property req "images" = VArray elems →
  let o := batch_extract srv req w in
  (decodings (events o)).*1 = elems
  ∧ length (attempts (events o))
    = length (filter (fun d => resolved d.2) (decodings (events o))).
Proof.
  intros Hready Himages o. subst o.
  destruct (batch_turns srv req elems w Hready Himages)
    as (results & segs & t & Hturns & _ & -> & -> & _).
  clear Hready Himages. induction Hturns as [|p evs elems segs (i & r & Hp) _ IH].
  { done. }
  rewrite !fmap_cons. cbn [concat]. rewrite fmap_app, filter_app, !length_app.
  destruct IH as [-> ->]. 
  apply pushes_cases in Hp
    as [(e&?&->&_)|[(img&e&?&->&_)|[(img&d&?&->&_)|(img&fd&v&?&->&_)]]];
    done.
Qed.

(** X7.  In the summary of a batch, [successful] counts the detector
    calls that returned a detection with a descriptor and is the number
    of records with [success: true]; [successful] and [failed] both lie
    between 0 and [total]. *)
Theorem batch_summary_counts srv req elems w :
  modelsLoaded srv = true →
  property req "images" = VArray elems →
  let o := batch_extract srv req w in
  ∃ results summary,
    result o = Normal (Build_Response 200 (Batch.Done results summary))
    ∧ Batch.successful summary
      = Z.of_nat (length (filter (fun r => Batch.success r) results))
    ∧ Batch.successful summary
      = Z.of_nat (length (filter (fun a => usable a.2) (attempts (events o))))
    ∧ 0 ≤ Batch.successful summary ≤ Batch.total summary
    ∧ 0 ≤ Batch.failed summary ≤ Batch.total summary.
Proof.
  intros Hready Himages o. subst o.
  destruct (batch_turns srv req elems w Hready Himages)
    as (results & segs & t & Helems & Hturns & -> & _ & Ho).
  exists results, (summarised (Z.of_nat (length elems)) results t).
  assert (length results = length elems) as Hlen.
  { apply Forall2_length in Helems, Hturns. congruence. }
  assert (length (filter (fun r => Batch.success r) results) ≤ length results)%nat
    as Hle by apply length_filter.
  split_and!; try done; simpl; try lia.
  f_equal. clear Ho Helems Hlen Hle.
  induction Hturns as [|r evs results segs (i & p & Hp) _ IH]; [done|].
  rewrite fmap_cons. cbn [concat]. rewrite filter_app, length_app, <- IH, filter_cons.
  apply pushes_cases in Hp
    as [(e&?&->&->)|[(img&e&?&->&->)|[(img&d&?&->&Hd&->)|(img&fd&v&?&->&Hv&->)]]];
    simpl; try done.
  - rewrite filter_cons. simpl.
    assert (has_descriptor d = false) as ->; [|done].
    apply not_true_is_false. intros Hd'.
    apply has_descriptor_described in Hd' as [? ?]. congruence.
  - rewrite filter_cons. simpl.
    rewrite bool_decide_eq_true_2 by eauto. done.
Qed.

Lemma summarised_average n results t :
  0 < n →
  Batch.averageTime (summarised n results t) = of_Z ((2 * t + n) / (2 * n)).
Proof. intros Hn. unfold summarised. cbn [Batch.averageTime]. by apply round_div. Qed.

(** X8.  For a batch of N > 0 elements, [averageTime] is the quotient
    of [totalTime] by N rounded to the nearest integer, halves upwards:
    a finite number, written as such in the JSON answer. *)
Theorem batch_average_rounds srv req elems w :
  modelsLoaded srv = true →
  property req "images" = VArray elems →
  elems ≠ [] →
  let o := batch_extract srv req w in
  ∃ results summary,
    result o = Normal (Build_Response 200 (Batch.Done results summary))
    ∧ Batch.total summary = Z.of_nat (length elems)
    ∧ Batch.averageTime summary
      = of_Z ((2 * Batch.totalTime summary + Batch.total summary)
              / (2 * Batch.total summary))
    ∧ JSON_number (Batch.averageTime summary)
      = VNumber (Batch.averageTime summary).
Proof.
  intros Hready Himages Hne o. subst o.
  destruct (batch_turns srv req elems w Hready Himages)
    as (results & segs & t & _ & _ & _ & _ & Ho).
  exists results, (summarised (Z.of_nat (length elems)) results t).
  assert (0 < Z.of_nat (length elems)) as Hpos.
  { destruct elems; [done|]. simpl. lia. }
  split_and!; try done.
  - by rewrite summarised_average.
  - by rewrite summarised_average.
Qed.

End BatchEdges.

(** ** Loading the models and starting the server *)

Section Loading.

Context {R : Runtime} {H : Host R}.

Lemma get_set o k v k' :
  Obj.get (Obj.set o k v) k' = if decide (k' = k) then Some v else Obj.get o k'.
Proof.
  induction o as [|[k0 v0] o IH]; simpl.
  - done.
  - destruct (decide (k = k0)) as [->|Hk]; simpl.
    + by destruct (decide (k' = k0)).
    + destruct (decide (k' = k0)) as [->|Hk']; [|done].
      by destruct (decide (k0 = k)).
Qed.

Lemma keys_set o k v :
  Obj.keys (Obj.set o k v)
  = if decide (k ∈ Obj.keys o) then Obj.keys o else Obj.keys o ++ [k].
Proof.
  unfold Obj.keys. induction o as [|[k0 v0] o IH].
  - done.
  - cbn [Obj.set]. rewrite fmap_cons. cbn [fst].
    destruct (decide (k = k0)) as [->|Hk].
    + rewrite fmap_cons. cbn [fst]. destruct (decide (_ ∈ _ :: _)) as [|Hn]; [done|].
      destruct Hn. apply elem_of_cons. by left.
    + rewrite fmap_cons, IH. cbn [fst].
      destruct (decide (k ∈ o.*1)) as [Hin|Hin].
      * destruct (decide (_ ∈ _ :: _)) as [|Hn]; [done|].
        destruct Hn. apply elem_of_cons. by right.
      * destruct (decide (_ ∈ _ :: _)) as [Hn|]; [|done].
        apply elem_of_cons in Hn as [?|?]; done.
Qed.

Lemma get_marked ms o k :
  Obj.get (marked ms o) k
  = if decide (k ∈ model <$> ms) then Some "loaded" else Obj.get o k.
Proof.
  unfold marked. revert o. induction ms as [|m ms IH]; intros o.
  - done.
  - cbn [foldl]. rewrite IH, get_set, fmap_cons.
    destruct (decide (k ∈ model <$> ms)) as [Hin|Hin].
    + destruct (decide (_ ∈ _ :: _)) as [|Hn]; [done|].
      destruct Hn. apply elem_of_cons. by right.
    + destruct (decide (k = model m)) as [->|Hk].
      * destruct (decide (_ ∈ _ :: _)) as [|Hn]; [done|].
        destruct Hn. apply elem_of_cons. by left.
      * destruct (decide (_ ∈ _ :: _)) as [Hn|]; [|done].
        apply elem_of_cons in Hn as [?|?]; done.
Qed.

Lemma modelLoaders_NoDup : NoDup (model <$> modelLoaders).
Proof. compute_done. Qed.

(** One turn of the loading loop. *)
Lemma load_turn_run m o w :
  load_turn m o w =
  let '(r, w') := loadFromDisk (net m) MODEL_URL w in
  match r with
  | Normal _ =>
      {| result := Normal (Normal tt, Obj.set o (model m) "loaded");
         after := w'; events := loaded_lines m |}
  | Throw e =>
      {| result := Normal (Throw e, Obj.set o (model m) "failed");
         after := w'; events := failed_lines m e |}
  end.
Proof.
  unfold load_turn, try_catch, mbind, M_bind, bind, run_loader, console_log,
    console_error, emit, mret, M_ret, ret, loaded_lines, failed_lines. simpl.
  by destruct (loadFromDisk (net m) MODEL_URL w) as [[[]|e] w'].
Qed.

Lemma loadings_app evs1 evs2 :
  loadings (evs1 ++ evs2) = loadings evs1 ++ loadings evs2.
Proof. apply omap_app. Qed.

(** The loader calls in the trace of turns that loaded their models. *)
Lemma loadings_loaded ms :
  loadings (concat (loaded_lines <$> ms))
  = (fun m => (net m, MODEL_URL, Normal tt)) <$> ms.
Proof.
  induction ms as [|m ms IH]; [done|].
  rewrite !fmap_cons. cbn [concat]. rewrite loadings_app, IH. done.
Qed.

(** The loading loop: every model loaded, or the loop left at the first
    loader that throws. *)
Lemma load_loop_run ms : ∀ o w,
  let run := load_loop ms o w in
  (result run = Normal (Normal tt, marked ms o)
   ∧ events run = concat (loaded_lines <$> ms))
  ∨ (∃ pre m post e,
       ms = pre ++ m :: post
       ∧ result run = Normal (Throw e, Obj.set (marked pre o) (model m) "failed")
       ∧ events run = concat (loaded_lines <$> pre) ++ failed_lines m e).
Proof.
  induction ms as [|m ms IH]; intros o w; simpl.
  { left. done. }
  rewrite run_bind, load_turn_run.
  destruct (loadFromDisk (net m) MODEL_URL w) as [[[]|e] w'].
  - cbn [result after events].
    destruct (IH (Obj.set o (model m) "loaded") w')
      as [[Hres Hev]|(pre & m' & post & e & -> & Hres & Hev)].
    + left. rewrite Hres, Hev. done.
    + right. exists (m :: pre), m', post, e. rewrite Hres, Hev.
      split_and!; first [done | by rewrite fmap_cons, <- app_assoc].
  - right. exists [], m, ms, e. done.
Qed.

(** The two ways [loadModels] ends. *)
Lemma loadModels_run g w :
  let run := loadModels g w in
  (∃ line,
     result run = Normal (true, {| loaded := true;
                                   progress := marked modelLoaders (progress g) |})
     ∧ events run
       = Log (LF +:+ " Loading face-api.js models...")
         :: concat (loaded_lines <$> modelLoaders) ++ [Log line])
  ∨ (∃ pre m post e,
       modelLoaders = pre ++ m :: post
       ∧ result run
         = Normal (false,
                   {| loaded := false;
                      progress := Obj.set (marked pre (progress g)) (model m) "failed" |})
       ∧ events run
         = Log (LF +:+ " Loading face-api.js models...")
           :: concat (loaded_lines <$> pre) ++ failed_lines m e
              ++ [ErrorLog (" Error loading models: " +:+ inspect e)]).
Proof.
  unfold loadModels. generalize modelLoaders. intros ms.
  unfold mbind, M_bind, bind, console_log, console_error, emit, Date_now,
    mret, M_ret, ret. simpl.
  destruct (now w) as [t0 w1].
  destruct (load_loop_run ms (progress g) w1)
    as [[Hres Hev]|(pre & m & post & e & -> & Hres & Hev)];
    destruct (load_loop _ (progress g) w1) as [res w2 evs];
    simpl in Hres, Hev; subst res evs; simpl.
  - destruct (now w2) as [t1 w3]. simpl. left. eexists. done.
  - right. exists pre, m, post, e. split_and!; try done.
    by rewrite <- app_assoc.
Qed.

(** What the POST handlers see of [loadingProgress] is what the object
    holds. *)
Lemma snapshot_progress g k :
  loadingProgress (snapshot g) !! k = Obj.get (progress g) k.
Proof.
  unfold snapshot. cbn [loadingProgress].
  induction (progress g) as [|[k0 v0] o IH]; [done|].
  cbn [list_to_map foldr Obj.get uncurry]. rewrite lookup_insert.
  cbn [fst snd]. rewrite IH.
  destruct (decide (k0 = k)) as [->|Hk].
  - by destruct (decide (k = k)).
  - destruct (decide (k = k0)) as [->|]; done.
Qed.

(** With the models loaded, the two POST handlers answer, and not
    with a 503. *)
Lemma ready_answers srv req w :
  modelsLoaded srv = true →
  (∃ resp, result (extract_embedding srv req w) = Normal resp
           ∧ status resp ≠ 503)
  ∧ (∃ resp, result (batch_extract srv req w) = Normal resp
             ∧ status resp ≠ 503).
Proof.
  intros Hready. split.
  - destruct (extract_embedding_run srv req w)
      as [[Hnot _]|[(_ & _ & _ & Ho)|[(_ & _ & e & _ & Ho)
         |(_ & _ & img & w1 & d & used & t & line & _ & _ & Ho)]]];
      [congruence|..]; rewrite Ho; by eexists.
  - destruct (batch_extract_run srv req w)
      as [[Hnot _]|[(_ & _ & _ & Ho)
         |(_ & elems & results & segs & t & _ & _ & _ & _ & _ & _ & Ho)]];
      [congruence|..]; rewrite Ho; by eexists.
Qed.

Lemma all_marked ms o m :
  m ∈ ms → Obj.get (marked ms o) (model m) = Some "loaded".
Proof.
  intros Hm. rewrite get_marked, decide_True; [done|].
  by apply list_elem_of_fmap_2.
Qed.

(** X9.  When [loadModels] returns [true], every loader was run, each
    once and in the order of [modelLoaders], on [MODEL_URL], and none
    threw; [modelsLoaded] is [true] and each of the six models is
    marked "loaded" in [loadingProgress]. *)
Theorem loadModels_success g w g' :
  result (loadModels g w) = Normal (true, g') →
  loaded g' = true
  ∧ loadings (events (loadModels g w))
    = (fun m => (net m, "./models", Normal tt)) <$> modelLoaders
  ∧ (∀ m, m ∈ modelLoaders →
       Obj.get (progress g') (model m) = Some "loaded")
  ∧ ∃ line,
      events (loadModels g w)
      = Log (LF +:+ " Loading face-api.js models...")
        :: concat (loaded_lines <$> modelLoaders) ++ [Log line].
Proof.
  intros Hres.
  destruct (loadModels_run g w)
    as [(line & Hres' & Hev)|(pre & m & post & e & _ & Hres' & _)];
    rewrite Hres in Hres'; [|discriminate Hres'].
  injection Hres' as ->. cbn [loaded progress].
  split_and!; [done| | |by eexists].
  - rewrite Hev.
    change (Log ?l :: ?evs) with ([Log l] ++ evs).
    rewrite !loadings_app, loadings_loaded. cbn [loadings omap].
    by rewrite app_nil_r.
  - intros m Hm. exact (all_marked modelLoaders (progress g) m Hm).
Qed.

(** X10.  When [loadModels] returns [false], it stopped at the first
    loader that threw: the loaders before it were run in order and
    returned, that one was run and threw, and no loader after it was
    run; the models before it are marked "loaded", that one is marked
    "failed", the entries of the models after it are as they were, and
    [modelsLoaded] is [false].  The last line written is the one of the
    outer [catch], with the error as the console writes it. *)
Theorem loadModels_failure g w g' :
  result (loadModels g w) = Normal (false, g') →
  loaded g' = false
  ∧ ∃ pre m post e,
      modelLoaders = pre ++ m :: post
      ∧ loadings (events (loadModels g w))
        = ((fun m' => (net m', "./models", Normal tt)) <$> pre)
          ++ [(net m, "./models", Throw e)]
      ∧ (∀ m', m' ∈ pre → Obj.get (progress g') (model m') = Some "loaded")
      ∧ Obj.get (progress g') (model m) = Some "failed"
      ∧ (∀ m', m' ∈ post →
           Obj.get (progress g') (model m') = Obj.get (progress g) (model m'))
      ∧ events (loadModels g w)
        = Log (LF +:+ " Loading face-api.js models...")
          :: concat (loaded_lines <$> pre) ++ failed_lines m e
             ++ [ErrorLog (" Error loading models: " +:+ inspect e)].
Proof.
  intros Hres.
  destruct (loadModels_run g w)
    as [(line & Hres' & _)|(pre & m & post & e & Hms & Hres' & Hev)];
    rewrite Hres in Hres'; [discriminate Hres'|].
  injection Hres' as ->.
  split; [done|]. exists pre, m, post, e.
  pose proof modelLoaders_NoDup as Hnd.
  rewrite Hms, fmap_app, fmap_cons in Hnd.
  apply NoDup_app in Hnd as (_ & Hpre & Hnd).
  apply NoDup_cons in Hnd as [Hpost _].
  cbn [progress]. split_and!; try done.
  - rewrite Hev.
    change (Log ?l :: ?evs) with ([Log l] ++ evs).
    rewrite !loadings_app, loadings_loaded. done.
  - intros m' Hm'. rewrite get_set, decide_False.
    + by apply all_marked.
    + intros Heq. apply (Hpre (model m')).
      * by apply list_elem_of_fmap_2.
      * rewrite Heq. apply elem_of_cons. by left.
  - by rewrite get_set, decide_True.
  - intros m' Hm'. rewrite get_set, decide_False, get_marked, decide_False.
    + done.
    + intros Hin. apply (Hpre (model m') Hin).
      apply elem_of_cons. right. by apply list_elem_of_fmap_2.
    + intros Heq. apply Hpost. rewrite <- Heq. by apply list_elem_of_fmap_2.
Qed.

(** X11.  [loadModels] never throws, whatever the loaders do: it
    returns a boolean, which is the value it leaves in [modelsLoaded],
    and it writes no entry of [loadingProgress] other than those of the
    six models. *)
Theorem loadModels_returns_flag g w :
  ∃ b g',
    result (loadModels g w) = Normal (b, g')
    ∧ loaded g' = b
    ∧ ∀ k, k ∉ model <$> modelLoaders →
        Obj.get (progress g') k = Obj.get (progress g) k.
Proof.
  destruct (loadModels_run g w)
    as [(line & Hres & _)|(pre & m & post & e & Hms & Hres & _)];
    rewrite Hres; do 2 eexists; (split_and!; [done|done|]); intros k Hk;
    cbn [progress].
  - by rewrite get_marked, decide_False.
  - rewrite Hms, fmap_app, fmap_cons in Hk.
    rewrite get_set, decide_False, get_marked, decide_False; [done|..].
    + intros Hin. apply Hk, elem_of_app. by left.
    + intros ->. apply Hk, elem_of_app. right. apply elem_of_cons. by left.
Qed.

Lemma listenings_app evs1 evs2 :
  listenings (evs1 ++ evs2) = listenings evs1 ++ listenings evs2.
Proof. apply omap_app. Qed.

(** [loadModels] does not call [app.listen]. *)
Lemma listenings_loadModels g w : listenings (events (loadModels g w)) = [].
Proof.
  assert (∀ ms, listenings (concat (loaded_lines <$> ms)) = []) as Hloaded.
  { induction ms as [|m ms IH]; [done|].
    rewrite fmap_cons. cbn [concat]. by rewrite listenings_app, IH. }
  destruct (loadModels_run g w)
    as [(line & _ & ->)|(pre & m & post & e & _ & _ & ->)];
    change (Log ?l :: ?evs) with ([Log l] ++ evs);
    rewrite !listenings_app, Hloaded; done.
Qed.

(** How the start ends, by what [loadModels] returned and by what
    becomes of [app.listen]. *)
Lemma start_run env g w :
  let o := start env g w in
  let ol := loadModels g w in
  ∃ b g',
    result ol = Normal (b, g')
    ∧ if b : bool then
        listenings (events o)
        = [(PORT env, (listen (PORT env) (after ol)).1)]
        ∧ match (listen (PORT env) (after ol)).1 with
          | Normal Bound => result o = Normal (Listening (PORT env) g')
          | Normal (Unbound e) => result o = Normal (Crashed e)
          | Throw e =>
              result o = Normal (Exited 1)
              ∧ last (events o)
                = Some (ErrorLog (" Fatal error during startup: "
                                  +:+ inspect e))
          end
      else
        result o = Normal (Exited 1) ∧ listenings (events o) = [].
Proof.
  intros o ol. subst o ol.
  assert (∃ b g', result (loadModels g w) = Normal (b, g')) as (b & g' & Hres).
  { destruct (loadModels_run g w)
      as [(line & Hres & _)|(pre & m & post & e & Hms & Hres & _)]; eauto. }
  pose proof (listenings_loadModels g w) as Hnone.
  exists b, g'. split; [done|].
  unfold start. generalize (PORT env). intros port.
  unfold try_catch, banner, app_listen, mbind, M_bind, bind, console_log,
    console_error, emit, mret, M_ret, ret. simpl.
  destruct (loadModels g w) as [res w' evs]. simpl in Hres, Hnone. subst res.
  destruct b; simpl.
  - destruct (listen port w') as [[[|e]|e] w''] eqn:Hl; simpl;
      rewrite ?listenings_app, Hnone; split_and?; try done.
    rewrite app_comm_cons. apply last_snoc.
  - by rewrite listenings_app, Hnone.
Qed.

(** A start that ends with the server listening. *)
Lemma start_listening env g w port g' :
  result (start env g w) = Normal (Listening port g') →
  port = PORT env ∧ result (loadModels g w) = Normal (true, g').
Proof.
  intros Hstart.
  destruct (start_run env g w) as (b & g'' & Hload & Hend).
  destruct b.
  - destruct Hend as [_ Hend].
    destruct (listen (PORT env) (after (loadModels g w))).1 as [[|e]|e];
      [|by rewrite Hstart in Hend|destruct Hend as [Hend _];
                                   by rewrite Hstart in Hend].
    rewrite Hstart in Hend. by injection Hend as -> ->.
  - destruct Hend as [Hend _]. by rewrite Hstart in Hend.
Qed.

(** X12.  The server listens only after [loadModels] returned [true]:
    then [modelsLoaded] is [true], the six models are marked "loaded",
    the port is [process.env.PORT || 5000], and no request to the two
    POST handlers is answered 503 "Models not loaded yet". *)
Theorem start_listens_only_when_loaded env g w port g' :
  result (start env g w) = Normal (Listening port g') →
  port = PORT env
  ∧ loaded g' = true
  ∧ (∀ m, m ∈ modelLoaders →
       Obj.get (progress g') (model m) = Some "loaded")
  ∧ ∀ req w',
      (∃ resp, result (extract_embedding (snapshot g') req w') = Normal resp
               ∧ status resp ≠ 503)
      ∧ (∃ resp, result (batch_extract (snapshot g') req w') = Normal resp
                 ∧ status resp ≠ 503).
Proof.
  intros Hstart.
  destruct (start_listening env g w port g' Hstart) as [-> Hload].
  destruct (loadModels_run g w)
    as [(line & Hres' & _)|(pre & m & post & e & _ & Hres' & _)];
    rewrite Hload in Hres'; [|discriminate Hres'].
  injection Hres' as ->. cbn [loaded progress].
  split_and!; try done.
  - intros m Hm. exact (all_marked modelLoaders (progress g) m Hm).
  - intros req w'. by apply ready_answers.
Qed.

(** X13.  The start never throws, and it ends in one of three ways.
    When [loadModels] returns [false], [app.listen] is not called and
    the start ends in [process.exit(1)].  When it returns [true],
    [app.listen] is called once, with [PORT]: if the call throws, the
    error is written by the [catch] of the start, which ends in
    [process.exit(1)] as well; if the server does not come to listen,
    the process dies of the error of the server; otherwise the server
    listens.  No other exit code is used. *)
Theorem start_outcome env g w :
  let o := start env g w in
  let ol := loadModels g w in
  let called := (listen (PORT env) (after ol)).1 in
  ∃ b g' s,
    result ol = Normal (b, g')
    ∧ result o = Normal s
    ∧ listenings (events o) = (if b : bool then [(PORT env, called)] else [])
    ∧ (s = Exited 1 ↔ b = false ∨ ∃ e, called = Throw e)
    ∧ (s = Listening (PORT env) g' ↔ b = true ∧ called = Normal Bound)
    ∧ (∀ e, s = Crashed e ↔ b = true ∧ called = Normal (Unbound e))
    ∧ (∀ e, b = true → called = Throw e →
         last (events o)
         = Some (ErrorLog (" Fatal error during startup: " +:+ inspect e)))
    ∧ (∀ code, s = Exited code → code = 1).
Proof.
  intros o ol called. subst o ol called.
  destruct (start_run env g w) as (b & g' & Hload & Hend).
  exists b, g'. destruct b.
  - destruct Hend as [Hcalls Hend].
    destruct (listen (PORT env) (after (loadModels g w))).1 as [[|e]|e].
    + eexists. split_and!; [done|exact Hend|done|..].
      * split; [done|]. intros [?|[? ?]]; done.
      * done.
      * intros e. split; [done|]. intros [_ ?]; done.
      * done.
      * done.
    + eexists. split_and!; [done|exact Hend|done|..].
      * split; [done|]. intros [?|[? ?]]; done.
      * split; [done|]. intros [_ ?]; done.
      * intros e'. split; [by intros [= ->]|]. by intros [_ [= ->]].
      * done.
      * done.
    + destruct Hend as [Hend Hlast].
      eexists. split_and!; [done|exact Hend|done|..].
      * split; eauto.
      * split; [done|]. intros [_ ?]; done.
      * intros e'. split; [done|]. intros [_ ?]; done.
      * by intros e' _ [= ->].
      * by intros code [= <-].
  - destruct Hend as [Hend Hcalls].
    eexists. split_and!; [done|exact Hend|done|..].
    + split; eauto.
    + split; [done|]. intros [? _]; done.
    + intros e. split; [done|]. intros [? _]; done.
    + done.
    + by intros code [= <-].
Qed.

(** X14.  After a start with an empty [loadingProgress], [/models]
    answers with [modelsLoaded: true] and, as [availableModels], the
    names of the six models in the order they were loaded. *)
Theorem models_after_start env g w port g' w' :
  progress g = [] →
  result (start env g w) = Normal (Listening port g') →
  ∃ b,
    result (models g' w') = Normal (Build_Response 200 (ModelsReport b))
    ∧ Models.modelsLoaded b = true
    ∧ Models.availableModels b
      = ["TinyFaceDetector"; "FaceLandmark68Net"; "FaceRecognitionNet";
         "FaceExpressionNet"; "AgeGenderNet"; "SsdMobilenetv1"]
    ∧ Models.loadingProgress b
      = (fun name => (name, "loaded")) <$> Models.availableModels b.
Proof.
  intros Hfresh Hstart.
  destruct (start_listening env g w port g' Hstart) as [-> Hload].
  destruct (loadModels_run g w)
    as [(line & Hres' & _)|(pre & m & post & e & _ & Hres' & _)];
    rewrite Hload in Hres'; [|discriminate Hres'].
  injection Hres' as ->. rewrite Hfresh.
  eexists. split; [reflexivity|]. done.
Qed.

End Loading.

(** ** The middleware, the routes and the monitoring endpoints *)

Section Routing.

Context {R : Runtime} {H : Host R}.

(** The two POST handlers always answer. *)
Lemma handlers_answer srv req w :
  (∃ resp, result (extract_embedding srv req w) = Normal resp)
  ∧ (∃ resp, result (batch_extract srv req w) = Normal resp).
Proof.
  split.
  - destruct (extract_embedding_run srv req w)
      as [[_ Ho]|[(_ & _ & _ & Ho)|[(_ & _ & e & _ & Ho)
         |(_ & _ & img & w1 & d & used & t & line & _ & _ & Ho)]]];
      rewrite Ho; by eexists.
  - destruct (batch_extract_run srv req w)
      as [[_ Ho]|[(_ & _ & _ & Ho)
         |(_ & elems & results & segs & t & _ & _ & _ & _ & _ & _ & Ho)]];
      rewrite Ho; by eexists.
Qed.

Lemma health_run g w :
  ∃ b w',
    health g w = {| result := Normal (Build_Response 200 (HealthReport b));
                    after := w'; events := [] |}
    ∧ Health.status b = "ok"
    ∧ Health.modelsLoaded b = loaded g
    ∧ Health.loadingProgress b = progress g.
Proof.
  unfold health, Date_toISOString, mbind, M_bind, bind, process_memoryUsage,
    process_uptime, Date_now, mret, M_ret, ret. simpl.
  destruct (memoryUsage w) as [m w1]. simpl.
  destruct (now w1) as [t w2]. simpl.
  destruct (uptime w2) as [u w3]. simpl.
  do 2 eexists. split; [reflexivity|]. done.
Qed.

Lemma stats_run g w :
  ∃ b w',
    stats g w = {| result := Normal (Build_Response 200 (StatsReport b));
                   after := w'; events := [] |}.
Proof.
  unfold stats, mbind, M_bind, bind, process_memoryUsage, process_uptime,
    mret, M_ret, ret. simpl.
  destruct (uptime w) as [u w1]. simpl.
  destruct (memoryUsage w1) as [m w2]. simpl.
  by do 2 eexists.
Qed.

(** The routes never throw. *)
Lemma routes_answer g req w :
  ∃ resp, result (routes g req w) = Normal resp.
Proof.
  unfold routes.
  destruct (routed GET "/health" req).
  { destruct (health_run g w) as (b & w' & -> & _). by eexists. }
  destruct (routed GET "/models" req).
  { by eexists. }
  destruct (routed POST "/extract_embedding" req).
  { rewrite run_bind.
    destruct (handlers_answer (snapshot g) (Req.body req) w) as [[resp ->] _].
    by eexists. }
  destruct (routed POST "/batch_extract" req).
  { rewrite run_bind.
    destruct (handlers_answer (snapshot g) (Req.body req) w) as [_ [resp ->]].
    by eexists. }
  destruct (routed GET "/stats" req).
  { destruct (stats_run g w) as (b & w' & ->). by eexists. }
  by eexists.
Qed.

(** A request that is not a preflight: the line of the logging
    middleware, then the routes. *)
Lemma dispatch_run g req w :
  String.eqb (Req.method req) "OPTIONS" = false →
  ∃ t w1 resp,
    now w = (t, w1)
    ∧ result (routes g req w1) = Normal resp
    ∧ result (dispatch g req w)
      = Normal {| headers := cors_headers; response := resp |}
    ∧ events (dispatch g req w)
      = Log (toISOString t +:+ " - " +:+ Req.method req +:+ " "
             +:+ Req.path req)
        :: events (routes g req w1).
Proof.
  intros Hm. unfold dispatch. rewrite Hm.
  unfold Date_toISOString, mbind, M_bind, bind, Date_now, console_log, emit,
    mret, M_ret, ret. simpl.
  destruct (now w) as [t w1]. simpl.
  destruct (routes_answer g req w1) as [resp Hresp].
  destruct (routes g req w1) as [res w2 evs] eqn:Hroutes.
  simpl in *. subst res.
  exists t, w1, resp. rewrite Hroutes. simpl. rewrite app_nil_r. done.
Qed.

(** An OPTIONS request is answered by the CORS middleware itself. *)
Lemma preflight_run g req w :
  Req.method req = "OPTIONS" →
  dispatch g req w
  = {| result := Normal {| headers := cors_headers;
                           response := Build_Response 200 (Text "OK") |};
       after := w; events := [] |}.
Proof. intros Hm. unfold dispatch. by rewrite Hm. Qed.

(** X15.  The application never throws.  A request whose body the body
    parsers refuse, whatever its method and path, is answered by the
    error-handling middleware: 500 "Internal server error" with the
    message of the error, after one line on the console; the CORS
    middleware and the logging middleware are skipped, so the reply
    carries none of the CORS headers and the request is not logged.
    Every other reply carries the three CORS headers.  An OPTIONS
    request whose body parses is answered 200 "OK" before the logging
    middleware and the routes: it is not logged, no route sees it and
    the clock is not read.  Any other request whose body parses is
    logged, with its method and path, before anything else happens. *)
Theorem cors_headers_unless_body_refused g wire w :
  let o := app g wire w in
  match bodyParser wire with
  | Throw e =>
      o = {| result :=
               Normal {| headers := [];
                         response :=
                           Build_Response 500
                             (InternalError "Internal server error"
                                (message e)) |};
             after := w;
             events := [ErrorLog (" Unhandled error: " +:+ inspect e)] |}
  | Normal body =>
      ∃ reply,
        result o = Normal reply
        ∧ headers reply = cors_headers
        ∧ (Wire.method wire = "OPTIONS" →
           response reply = Build_Response 200 (Text "OK")
           ∧ events o = []
           ∧ after o = w)
        ∧ (Wire.method wire ≠ "OPTIONS" →
           ∃ rest,
             events o
             = Log (toISOString (now w).1 +:+ " - " +:+ Wire.method wire
                    +:+ " " +:+ Wire.path wire) :: rest)
  end.
Proof.
  intros o. subst o. unfold app.
  destruct (bodyParser wire) as [body|e]; [|reflexivity].
  destruct (String.eqb (Wire.method wire) "OPTIONS") eqn:Hm.
  - apply String.eqb_eq in Hm.
    rewrite (preflight_run g (parsed wire body) w Hm).
    eexists. split_and!; [done|done|done|]. by intros [].
  - destruct (dispatch_run g (parsed wire body) w Hm)
      as (t & w1 & resp & Hnow & _ & -> & ->).
    apply String.eqb_neq in Hm.
    eexists. split_and!; [done|done|by intros ?|]. intros _.
    eexists. by rewrite Hnow.
Qed.


(** X17.  [/health] is not gated by the readiness flag: a request
    that left the body parsers and that the first route takes is
    answered 200 with status "ok" also while
    [modelsLoaded] is [false]; the answer reports [modelsLoaded] and
    [loadingProgress] as they are, and neither the decoder nor the
    detector is called. *)
Theorem health_is_not_gated g req w :
  Req.method req ≠ "OPTIONS" →
  routed GET "/health" req = true →
  ∃ b line,
    result (dispatch g req w)
    = Normal {| headers := cors_headers;
                response := Build_Response 200 (HealthReport b) |}
    ∧ Health.status b = "ok"
    ∧ Health.modelsLoaded b = loaded g
    ∧ Health.loadingProgress b = progress g
    ∧ events (dispatch g req w) = [Log line].
Proof.
  intros Hm Hroute.
  apply String.eqb_neq in Hm.
  destruct (dispatch_run g req w Hm) as (t & w1 & resp & _ & Hr & -> & ->).
  unfold routes in *. rewrite Hroute in *.
  destruct (health_run g w1) as (b & w' & Hh & Hs & Hl & Hp).
  rewrite Hh in *. simpl in Hr. injection Hr as <-.
  exists b. eexists. split_and!; done.
Qed.

(** X18.  The memory figures of [/health] are whole numbers of
    mebibytes, the nearest to the byte count, halves upwards. *)
Theorem megabytes_rounds_to_nearest bytes :
  megabytes bytes = pretty ((bytes + 524288) / 1048576) +:+ " MB".
Proof.
  unfold megabytes, rounded_text.
  assert (div (div (of_Z bytes) (of_Z 1024)) (of_Z 1024)
          = div (of_Z bytes) (of_Z 1048576)) as ->.
  { unfold div, of_Z. rewrite !nonzero_divisor by lia.
    f_equal. apply Qc_is_canon.
    assert (∀ x y : Qc, (this (x / y)%Qc == this x / this y)%Q) as Hdiv.
    { intros x y. unfold Qcdiv, Qcmult, Qcinv. by rewrite !this_Q2Qc. }
    rewrite !Hdiv, !this_Q2Qc.
    unfold Qeq, Qdiv, Qmult, Qinv, inject_Z. simpl. lia. }
  rewrite round_div by lia. unfold of_Z. cbn [Math_round].
  do 2 f_equal.
  replace (Qfloor _) with ((2 * bytes + 1048576) / (2 * 1048576)).
  - replace (2 * bytes + 1048576) with ((bytes + 524288) * 2) by lia.
    replace (2 * 1048576) with (1048576 * 2) by lia.
    by rewrite Z.div_mul_cancel_r.
  - symmetry. rewrite this_Q2Qc. apply Qfloor_Z.
Qed.

End Routing.

(** ** Runs of the rest of the server *)

Module HostRuns.

Import Demo DemoHost.

Lemma extract_without_image_witness :
  modelsLoaded ready = true
  ∧ truthy (property (∅ : gmap string value) "image") = false
  ∧ result (extract_embedding (R := runtime) ready ∅ 1000)
    = Normal (Build_Response 400
                (Extract.BadRequest "No image provided in request body"))
  ∧ events (extract_embedding (R := runtime) ready ∅ 1000) = [].
Proof.
  split; [reflexivity|]. split; [reflexivity|].
  apply (extract_without_image (R := runtime) ready ∅ 1000); reflexivity.
Defined.

Lemma extract_decodes_once_witness :
  modelsLoaded ready = true
  ∧ truthy (property (single "garbage") "image") = true
  ∧ ∃ r resp,
      decodings (events (extract_embedding (R := runtime) ready (single "garbage") 1000))
      = [(property (single "garbage") "image", r)]
      ∧ result (extract_embedding (R := runtime) ready (single "garbage") 1000)
        = Normal resp
      ∧ match r with
        | Throw _ =>
            resp = Build_Response 400
                     (Extract.BadRequest
                        "Invalid image format or corrupted base64 data")
            ∧ attempts (events (extract_embedding (R := runtime) ready
                                  (single "garbage") 1000)) = []
        | Normal _ => status resp = 200
        end.
Proof.
  split; [reflexivity|]. split; [reflexivity|].
  apply (extract_decodes_once (R := runtime) ready (single "garbage") 1000);
    reflexivity.
Defined.

Lemma extract_success_names_strategy_witness :
  ∃ t bb c lm,
    result (extract_embedding (R := runtime) ready (single "profile") 1000)
    = Normal (Build_Response 200
        (Extract.Found vector t (Some "SsdMobilenetv1") bb c lm))
    ∧ ∃ s, Some "SsdMobilenetv1" = Some (name s)
           ∧ s ∈ detectionStrategies
           ∧ fst <$> last (attempts (events (extract_embedding (R := runtime)
                                               ready (single "profile") 1000)))
             = Some (options s).
Proof.
  do 4 eexists. split.
  { vm_compute. reflexivity. }
  eapply (extract_success_names_strategy (R := runtime) ready (single "profile")
            1000).
  vm_compute. reflexivity.
Defined.

Lemma batch_without_array_witness :
  modelsLoaded ready = true
  ∧ (truthy (property (single "frontal") "images") = false
     ∨ Array_isArray (property (single "frontal") "images") = false)
  ∧ result (batch_extract (R := runtime) ready (single "frontal") 1000)
    = Normal (Build_Response 400 (Batch.BadRequest "Images array is required"))
  ∧ events (batch_extract (R := runtime) ready (single "frontal") 1000) = [].
Proof.
  split; [reflexivity|]. split; [left; reflexivity|].
  apply (batch_without_array (R := runtime) ready (single "frontal") 1000);
    [reflexivity | left; reflexivity].
Defined.

Lemma batch_decodes_each_once_witness :
  modelsLoaded ready = true
  ∧ property (many ["frontal"; "smudge"; "garbage"]) "images" = VArray trio
  ∧ (decodings (events (batch_extract (R := runtime) ready
                          (many ["frontal"; "smudge"; "garbage"]) 1000))).*1
    = trio
  ∧ length (attempts (events (batch_extract (R := runtime) ready
                                (many ["frontal"; "smudge"; "garbage"]) 1000)))
    = length (filter (fun d => resolved d.2)
                (decodings (events (batch_extract (R := runtime) ready
                                      (many ["frontal"; "smudge"; "garbage"]) 1000)))).
Proof.
  split; [reflexivity|]. split; [reflexivity|].
  apply (batch_decodes_each_once (R := runtime) ready
           (many ["frontal"; "smudge"; "garbage"]) trio 1000); reflexivity.
Defined.

Lemma batch_summary_counts_witness :
  modelsLoaded ready = true
  ∧ property (many ["frontal"; "smudge"; "garbage"]) "images" = VArray trio
  ∧ ∃ results summary,
      result (batch_extract (R := runtime) ready
                (many ["frontal"; "smudge"; "garbage"]) 1000)
      = Normal (Build_Response 200 (Batch.Done results summary))
      ∧ Batch.successful summary
        = Z.of_nat (length (filter (fun r => Batch.success r) results))
      ∧ Batch.successful summary
        = Z.of_nat (length (filter (fun a => usable a.2)
                              (attempts (events (batch_extract (R := runtime) ready
                                  (many ["frontal"; "smudge"; "garbage"]) 1000)))))
      ∧ 0 ≤ Batch.successful summary ≤ Batch.total summary
      ∧ 0 ≤ Batch.failed summary ≤ Batch.total summary.
Proof.
  split; [reflexivity|]. split; [reflexivity|].
  apply (batch_summary_counts (R := runtime) ready
           (many ["frontal"; "smudge"; "garbage"]) trio 1000); reflexivity.
Defined.

Lemma batch_average_rounds_witness :
  modelsLoaded ready = true
  ∧ property (many ["frontal"; "smudge"; "garbage"]) "images" = VArray trio
  ∧ trio ≠ []
  ∧ ∃ results summary,
      result (batch_extract (R := runtime) ready
                (many ["frontal"; "smudge"; "garbage"]) 1000)
      = Normal (Build_Response 200 (Batch.Done results summary))
      ∧ Batch.total summary = Z.of_nat (length trio)
      ∧ Batch.averageTime summary
        = of_Z ((2 * Batch.totalTime summary + Batch.total summary)
                / (2 * Batch.total summary))
      ∧ JSON_number (Batch.averageTime summary)
        = VNumber (Batch.averageTime summary).
Proof.
  split; [reflexivity|]. split; [reflexivity|]. split; [discriminate|].
  apply (batch_average_rounds (R := runtime) ready
           (many ["frontal"; "smudge"; "garbage"]) trio 1000);
    [reflexivity|reflexivity|discriminate].
Defined.

(** Three pictures in 35 ms: 11.67 ms each, 12 when rounded. *)
Example trio_average :
  ∃ results summary,
    result (batch_extract (R := runtime) ready
              (many ["frontal"; "smudge"; "garbage"]) 1000)
    = Normal (Build_Response 200 (Batch.Done results summary))
    ∧ Batch.totalTime summary = 35
    ∧ Batch.averageTime summary = of_Z 12.
Proof. do 2 eexists. split_and!; vm_compute; reflexivity. Qed.

Lemma loadModels_success_witness :
  ∃ g',
    result (loadModels (H := complete) fresh 0) = Normal (true, g')
    ∧ loaded g' = true
    ∧ loadings (events (loadModels (H := complete) fresh 0))
      = (fun m => (net m, "./models", Normal tt)) <$> modelLoaders
    ∧ (∀ m, m ∈ modelLoaders →
         Obj.get (progress g') (model m) = Some "loaded")
    ∧ ∃ line,
        events (loadModels (H := complete) fresh 0)
        = Log (LF +:+ " Loading face-api.js models...")
          :: concat (loaded_lines <$> modelLoaders) ++ [Log line].
Proof.
  eexists. split.
  { vm_compute. reflexivity. }
  apply (loadModels_success (H := complete) fresh 0).
  vm_compute. reflexivity.
Defined.

(** The six loader calls of a complete load. *)
Example complete_load :
  loadings (events (loadModels (H := complete) fresh 0))
  = [(tinyFaceDetector, "./models", Normal tt);
     (faceLandmark68Net, "./models", Normal tt);
     (faceRecognitionNet, "./models", Normal tt);
     (faceExpressionNet, "./models", Normal tt);
     (ageGenderNet, "./models", Normal tt);
     (ssdMobilenetv1, "./models", Normal tt)].
Proof. vm_compute. reflexivity. Qed.

Lemma loadModels_failure_witness :
  ∃ g',
    result (loadModels (H := incomplete) fresh 0) = Normal (false, g')
    ∧ loaded g' = false
    ∧ ∃ pre m post e,
        modelLoaders = pre ++ m :: post
        ∧ loadings (events (loadModels (H := incomplete) fresh 0))
          = ((fun m' => (net m', "./models", Normal tt)) <$> pre)
            ++ [(net m, "./models", Throw e)]
        ∧ (∀ m', m' ∈ pre → Obj.get (progress g') (model m') = Some "loaded")
        ∧ Obj.get (progress g') (model m) = Some "failed"
        ∧ (∀ m', m' ∈ post →
             Obj.get (progress g') (model m')
             = Obj.get (progress fresh) (model m'))
        ∧ events (loadModels (H := incomplete) fresh 0)
          = Log (LF +:+ " Loading face-api.js models...")
            :: concat (loaded_lines <$> pre) ++ failed_lines m e
               ++ [ErrorLog (" Error loading models: "
                             +:+ @inspect runtime e)].
Proof.
  eexists. split.
  { vm_compute. reflexivity. }
  apply (loadModels_failure (H := incomplete) fresh 0).
  vm_compute. reflexivity.
Defined.

(** With two files missing the third loader throws: two models are
    marked "loaded", the third "failed", and the others have no entry. *)
Example incomplete_load :
  result (loadModels (H := incomplete) fresh 0)
  = Normal (false,
            {| loaded := false;
               progress := [("TinyFaceDetector", "loaded");
                            ("FaceLandmark68Net", "loaded");
                            ("FaceRecognitionNet", "failed")] |}).
Proof. vm_compute. reflexivity. Qed.

(** The loader calls of that load: the third one threw, the last three
    loaders were not called. *)
Example incomplete_load_calls :
  loadings (events (loadModels (H := incomplete) fresh 0))
  = [(tinyFaceDetector, "./models", Normal tt);
     (faceLandmark68Net, "./models", Normal tt);
     (faceRecognitionNet, "./models",
      Throw {| message := "ENOENT: no such file or directory" |})].
Proof. vm_compute. reflexivity. Qed.

(** With every model loaded and a port that is no port number,
    [app.listen] throws and the start ends in [process.exit(1)]; with a
    port that may not be opened the process dies; with the models
    missing [app.listen] is not called. *)
Example start_with_bad_port :
  (∃ g', result (loadModels (H := complete) fresh 0) = Normal (true, g'))
  ∧ result (start (H := complete) (Some "99999") fresh 0) = Normal (Exited 1)
  ∧ last (events (start (H := complete) (Some "99999") fresh 0))
    = Some (ErrorLog (" Fatal error during startup: Error: "
                      +:+ "options.port should be >= 0 and < 65536"
                      +:+ " at faceapi_server.js"))
  ∧ result (start (H := complete) (Some "80") fresh 0)
    = Normal (Crashed {| message := "listen EACCES: permission denied" |})
  ∧ result (start (H := incomplete) None fresh 0) = Normal (Exited 1)
  ∧ listenings (events (start (H := incomplete) None fresh 0)) = [].
Proof. split_and!; [eexists|..]; vm_compute; reflexivity. Qed.

Lemma start_listens_only_when_loaded_witness :
  ∃ g',
    result (start (H := complete) (Some "8080") fresh 0)
    = Normal (Listening (inl "8080") g')
    ∧ inl "8080" = PORT (Some "8080")
    ∧ loaded g' = true
    ∧ (∀ m, m ∈ modelLoaders →
         Obj.get (progress g') (model m) = Some "loaded")
    ∧ ∀ req w',
        (∃ resp, result (extract_embedding (R := runtime) (snapshot g') req w')
                 = Normal resp
                 ∧ status resp ≠ 503)
        ∧ (∃ resp, result (batch_extract (R := runtime) (snapshot g') req w')
                   = Normal resp
                   ∧ status resp ≠ 503).
Proof.
  eexists. split.
  { vm_compute. reflexivity. }
  apply (start_listens_only_when_loaded (H := complete) (Some "8080") fresh 0).
  vm_compute. reflexivity.
Defined.

Lemma models_after_start_witness :
  progress fresh = []
  ∧ ∃ g',
      result (start (H := complete) None fresh 0)
      = Normal (Listening (inr 5000) g')
      ∧ ∃ b,
          result (models (R := runtime) g' 700)
          = Normal (Build_Response 200 (ModelsReport b))
          ∧ Models.modelsLoaded b = true
          ∧ Models.availableModels b
            = ["TinyFaceDetector"; "FaceLandmark68Net"; "FaceRecognitionNet";
               "FaceExpressionNet"; "AgeGenderNet"; "SsdMobilenetv1"]
          ∧ Models.loadingProgress b
            = (fun name => (name, "loaded")) <$> Models.availableModels b.
Proof.
  split; [reflexivity|]. eexists. split.
  { vm_compute. reflexivity. }
  apply (models_after_start (H := complete) None fresh 0 (inr 5000)).
  - reflexivity.
  - vm_compute. reflexivity.
Defined.

(** A body that is no JSON: the reply is a 500 without the CORS
    headers and the request is not logged, also for an OPTIONS
    request. *)
Example refused_body :
  app (H := complete) fresh (incoming "POST" "/extract_embedding" "{") 0
  = {| result :=
         Normal {| headers := [];
                   response :=
                     Build_Response 500
                       (InternalError "Internal server error"
                          "Unexpected end of JSON input") |};
       after := 0;
       events := [ErrorLog (" Unhandled error: Error: "
                            +:+ "Unexpected end of JSON input"
                            +:+ " at faceapi_server.js")] |}
  ∧ result (app (H := complete) fresh (incoming "OPTIONS" "/nowhere" "{") 0)
    = result (app (H := complete) fresh
                (incoming "POST" "/extract_embedding" "{") 0).
Proof. split; vm_compute; reflexivity. Qed.

(** A preflight without a body, and a request with a form. *)
Example parsed_bodies :
  app (H := complete) fresh (incoming "OPTIONS" "/nowhere" "") 0
  = {| result := Normal {| headers := cors_headers;
                           response := Build_Response 200 (Text "OK") |};
       after := 0; events := [] |}
  ∧ ∃ reply,
      result (app (H := complete) (Build_Globals true [])
                (incoming "POST" "/extract_embedding" "image=frontal") 0)
      = Normal reply
      ∧ headers reply = cors_headers
      ∧ status (response reply) = 200.
Proof.
  split; [vm_compute; reflexivity|].
  eexists. split_and!; vm_compute; reflexivity.
Qed.


(** [/health] while nothing is loaded. *)
Lemma health_is_not_gated_witness :
  Req.method (request "GET" "/health") ≠ "OPTIONS"
  ∧ @routed runtime complete GET "/health" (request "GET" "/health") = true
  ∧ ∃ b line,
      result (dispatch (H := complete) fresh (request "GET" "/health") 0)
      = Normal {| headers := cors_headers;
                  response := Build_Response 200 (HealthReport b) |}
      ∧ Health.status b = "ok"
      ∧ Health.modelsLoaded b = loaded fresh
      ∧ Health.loadingProgress b = progress fresh
      ∧ events (dispatch (H := complete) fresh (request "GET" "/health") 0)
        = [Log line].
Proof.
  split; [discriminate|]. split; [reflexivity|].
  apply (health_is_not_gated (H := complete)); (discriminate || reflexivity).
Defined.

Example health_memory :
  megabytes 52953088 = "51 MB" ∧ megabytes 1572863 = "1 MB"
  ∧ megabytes 1572864 = "2 MB".
Proof. split_and!; vm_compute; reflexivity. Qed.

End HostRuns.

(** ** Elapsed times *)

Section Times.

Context {R : Runtime} (time : World → Z) (clock : Monotone time).

Lemma read_clock w t w1 : now w = (t, w1) → t = time w ∧ time w ≤ time w1.
Proof.
  intros Hnow. pose proof (now_time time clock w) as Ht.
  pose proof (now_later time clock w) as Hl. rewrite Hnow in Ht, Hl. done.
Qed.

(** The time of a record is the time its turn took, at most. *)
Lemma batch_item_time i p w :
  ∃ r, result (batch_item i p w) = Normal r
       ∧ 0 ≤ item_time r ≤ time (after (batch_item i p w)) - time w.
Proof.
  rewrite batch_item_run.
  destruct (now w) as [t0 w1] eqn:H0. apply read_clock in H0 as [-> ?].
  pose proof (decode_later time clock p w1) as Hd.
  destruct (decode p w1) as [[img|e] w2]; simpl in Hd.
  - pose proof (infer_later time clock img batchOptions w2) as Hi.
    destruct (infer img batchOptions w2) as [ri w3]; simpl in Hi.
    destruct (now w3) as [t1 w4] eqn:H1. apply read_clock in H1 as [-> ?].
    eexists. split; [reflexivity|]. simpl.
    destruct ri as [d|e]; [destruct (described d) as [[fd v]|]|]; simpl; lia.
  - destruct (now w2) as [t1 w3] eqn:H1. apply read_clock in H1 as [-> ?].
    eexists. split; [reflexivity|]. simpl. lia.
Qed.

Lemma batch_loop_time n todo : ∀ i results w,
  ∃ new,
    result (batch_loop n todo i results w) = Normal (results ++ new)
    ∧ Forall (fun r => 0 ≤ item_time r) new
    ∧ foldr Z.add 0 (item_time <$> new)
      ≤ time (after (batch_loop n todo i results w)) - time w.
Proof.
  induction todo as [|p todo IH]; intros i results w; simpl.
  { exists []. rewrite app_nil_r. split_and!; [done|constructor|simpl; lia]. }
  rewrite run_bind.
  destruct (batch_item_time i p w) as (r & Hr & Ht).
  rewrite Hr. cbn [result after events]. rewrite run_bind.
  destruct (progress_line_run i n (after (batch_item i p w))) as (pevs & -> & _).
  cbn [result after events].
  destruct (IH (i + 1) (results ++ [r]) (after (batch_item i p w)))
    as (new & Hres & Hall & Hsum).
  exists (r :: new). rewrite Hres. split_and!.
  - by rewrite <- app_assoc.
  - constructor; [lia|done].
  - rewrite fmap_cons. simpl. lia.
Qed.

(** X19.  With a clock that does not run backwards, every
    [inferenceTime] of a batch is at least 0, and together the
    [inferenceTime]s of the records do not exceed [totalTime]. *)
Theorem batch_times srv req elems w :
  modelsLoaded srv = true →
  property req "images" = VArray elems →
  ∃ results summary,
    result (batch_extract srv req w)
    = Normal (Build_Response 200 (Batch.Done results summary))
    ∧ Forall (fun r => 0 ≤ item_time r) results
    ∧ 0 ≤ foldr Z.add 0 (item_time <$> results) ≤ Batch.totalTime summary.
Proof.
  intros Hready Himages. unfold batch_extract.
  rewrite Hready, Himages. simpl.
  unfold try_catch, mbind, M_bind, bind, Date_now, console_log, emit,
    mret, M_ret, ret. simpl.
  destruct (now w) as [t0 w1] eqn:H0. apply read_clock in H0 as [-> ?]. simpl.
  destruct (batch_loop_time (Z.of_nat (length elems)) elems 0 [] w1)
    as (results & Hres & Hall & Hsum).
  destruct (batch_loop (Z.of_nat (length elems)) elems 0 [] w1)
    as [res wl evl].
  simpl in *. subst res. simpl.
  destruct (now wl) as [t1 w2] eqn:H1. apply read_clock in H1 as [-> ?]. simpl.
  do 2 eexists. split; [reflexivity|]. split; [done|]. simpl.
  split; [|lia].
  clear -Hall. induction Hall as [|r l Hr _ IH]; [simpl; lia|].
  rewrite fmap_cons. cbn [foldr]. lia.
Qed.

Lemma turn_time img s d w :
  ∃ t, result (turn img s d w) = Normal t
       ∧ time w ≤ time (after (turn img s d w)).
Proof.
  rewrite turn_run.
  destruct (now w) as [t0 w1] eqn:H0. apply read_clock in H0 as [-> ?].
  pose proof (infer_later time clock img (options s) w1) as Hi.
  destruct (infer img (options s) w1) as [[d'|e] w2]; simpl in Hi.
  - destruct (has_descriptor d').
    + destruct (now w2) as [t1 w3] eqn:H1. apply read_clock in H1 as [-> ?].
      eexists. split; [reflexivity|]. simpl. lia.
    + eexists. split; [reflexivity|]. simpl. lia.
  - eexists. split; [reflexivity|]. simpl. lia.
Qed.

Lemma strategy_loop_time img strategies : ∀ d w,
  time w ≤ time (after (strategy_loop img strategies d w)).
Proof.
  induction strategies as [|s rest IH]; intros d w; simpl; [lia|].
  rewrite run_bind.
  destruct (turn_time img s d w) as (t & -> & Ht).
  cbn [after]. destruct t as [d' used|d']; simpl; [lia|].
  specialize (IH d' (after (turn img s d w))). lia.
Qed.

(** X20.  With a clock that does not run backwards, the
    [inferenceTime] of every answer of [/extract_embedding] that has
    one (success, no face, failure) is at least 0. *)
Theorem extract_time srv req w resp t :
  result (extract_embedding srv req w) = Normal resp →
  answer_time (body resp) = Some t →
  0 ≤ t.
Proof.
  unfold extract_embedding.
  remember detectionStrategies as strategies eqn:Hs.
  destruct (modelsLoaded srv); simpl.
  2:{ intros [= <-]. done. }
  unfold mbind, M_bind, bind, try_catch, Date_now, loadImage, mret, M_ret, ret.
  destruct (now w) as [t0 w1] eqn:H0. apply read_clock in H0 as [-> ?]. simpl.
  destruct (truthy (property req "image")); simpl.
  2:{ intros [= <-]. done. }
  pose proof (decode_later time clock (property req "image") w1) as Hd.
  destruct (decode (property req "image") w1) as [[img|e] w2]; simpl in *.
  2:{ intros [= <-]. done. }
  pose proof (strategy_loop_time img strategies None w2) as Hl.
  assert (∃ d used, result (strategy_loop img strategies None w2)
                    = Normal (d, used)) as (d & used & Hres).
  { destruct (strategy_loop_run strategies img None w2 eq_refl)
      as (rs & _ & _ & _ & [(? & s & ? & ? & fd & _ & _ & _ & _ & _ & Hres)
                           |(_ & _ & d & _ & Hres)]); eauto. }
  destruct (strategy_loop img strategies None w2) as [res wl evl].
  simpl in *. subst res. simpl.
  destruct (now wl) as [t1 w3] eqn:H1. apply read_clock in H1 as [-> ?]. simpl.
  destruct (answer_run d used (time wl - time w) w3) as [line ->]. simpl.
  intros [= <-]. unfold answered.
  destruct (described d) as [[fd v]|]; simpl; intros [= <-]; lia.
Qed.

End Times.

(** ** Runs with the clock of the demonstration *)

Module TimeRuns.

Import Demo DemoHost.

Lemma demo_clock : Monotone (R := runtime) clock.
Proof. split; intros; unfold clock; simpl; lia. Qed.

Lemma batch_times_witness :
  modelsLoaded ready = true
  ∧ property (many ["frontal"; "smudge"; "garbage"]) "images" = VArray trio
  ∧ ∃ results summary,
      result (batch_extract (R := runtime) ready
                (many ["frontal"; "smudge"; "garbage"]) 1000)
      = Normal (Build_Response 200 (Batch.Done results summary))
      ∧ Forall (fun r => 0 ≤ item_time r) results
      ∧ 0 ≤ foldr Z.add 0 (item_time <$> results) ≤ Batch.totalTime summary.
Proof.
  split; [reflexivity|]. split; [reflexivity|].
  apply (batch_times (R := runtime) clock demo_clock ready
           (many ["frontal"; "smudge"; "garbage"]) trio 1000); reflexivity.
Defined.

Lemma extract_time_witness :
  ∃ resp,
    result (extract_embedding (R := runtime) ready (single "blank wall") 1000)
    = Normal resp
    ∧ answer_time (body resp) = Some 25
    ∧ 0 ≤ 25.
Proof.
  eexists. split; [vm_compute; reflexivity|]. split; [reflexivity|].
  eapply (extract_time (R := runtime) clock demo_clock ready
            (single "blank wall") 1000).
  - vm_compute. reflexivity.
  - reflexivity.
Defined.

End TimeRuns.
